(** * Lowering of aten graphs to MIGraphX: [torch_migraphx/dynamo/lower_dynamo.py]

    A shallow embedding of [lower_aten_to_mgx] and [lower_subgraph].  Both are
    sequencing code around collaborators that live elsewhere (the pass manager,
    the partitioner, torch's [ShapeProp], the [MGXInterpreter], [migraphx.save],
    [MGXModule]).  The collaborators are parameters of the development; the
    sequencing, the keyword handling, the in-place substitution of children and
    the propagation of exceptions are modelled from the source. *)

From stdpp Require Import base decidable option list strings gmap functions pretty.

Set Default Proof Using "Type".

(** ** Python values that travel through [**kwargs]

    The options this file reads are flags and a file name; [None], booleans,
    integers and strings are the values modelled. *)

Inductive PyVal :=
| PyNone
| PyBool (b : bool)
| PyInt (z : Z)
| PyStr (s : string).

Global Instance PyVal_eq_dec : EqDecision PyVal.
Proof. solve_decision. Defined.

(** [bool(v)]: what [if v:] tests. *)
Definition py_truthy (v : PyVal) : bool :=
  match v with
  | PyNone => false
  | PyBool b => b
  | PyInt z => negb (Z.eqb z 0)
  | PyStr s => negb (String.eqb s "")
  end.

(** [str(z)] for an integer, as a decimal numeral. *)
Definition py_str_int (z : Z) : string :=
  match z with
  | Z0 => "0"
  | Zpos p => pretty (Npos p)
  | Zneg p => "-" +:+ pretty (Npos p)
  end.

(** [format(v, '')], the conversion an f-string field [{v}] applies. *)
Definition py_str (v : PyVal) : string :=
  match v with
  | PyNone => "None"
  | PyBool true => "True"
  | PyBool false => "False"
  | PyInt z => py_str_int z
  | PyStr s => s
  end.

(** The keyword dictionary [kwargs]. *)
Abbreviation Kwargs := (gmap string PyVal).

(** [kwargs[key] if key in kwargs else dflt] *)
Definition kwargs_get (key : string) (dflt : PyVal) (kwargs : Kwargs) : PyVal :=
  match kwargs !! key with
  | Some v => v
  | None => dflt
  end.

(** Object identities of graph modules. *)
Definition loc := nat.

Section Model.

Context {Graph Tensor Program E : Type}.

(** ** Data model *)

(** Modelled from the spec: [MGXModule] (torch_migraphx/fx/mgx_module.py) is the
    compiled module wrapper; it is built from a compiled program, the list of
    input names and the precision-reduction flag, and keeps the three as they
    were passed to its constructor. *)
Record MGXModule := mkMGXModule {
  program : Program;
  input_names : list string;
  quantize_fp16 : PyVal
}.

(** Modelled from the spec: a wrapper is marked for reduced-precision execution
    when its [quantize_fp16] flag is true. *)
Definition reduced_precision (m : MGXModule) : bool := py_truthy (quantize_fp16 m).

(** What a slot of [_modules] holds: a reference to a graph module (a
    subgraph of the partition) or a compiled wrapper. *)
Inductive Child :=
| Subgraph (l : loc)
| Compiled (m : MGXModule).

Definition is_compiled (c : Child) : bool :=
  match c with
  | Subgraph _ => false
  | Compiled _ => true
  end.

(** A [torch.fx.GraphModule] object: its graph (nodes with their metadata) and
    its ordered dictionary [_modules] of named children. *)
Record GraphModule := mkGraphModule {
  graph : Graph;
  modules : list (string * Child)
}.

(** The store of graph module objects.  References never dangle in Python, so
    the store is total. *)
Definition Heap : Type := loc -> GraphModule.

(** What the two functions do to the outside, oldest first: the calls of
    [print_graph_info] and the files written by [migraphx.save], together with
    the calls [lower_aten_to_mgx] makes to the pass manager and to
    [lower_subgraph], with the arguments they receive. *)
Inductive Event :=
| EvPrintGraphInfo (name : string) (mod_ : Child) (inputs : list Tensor)
| EvRunAtenPasses (gm : loc) (inputs : list Tensor) (verbose : PyVal)
| EvLowerSubgraph (module : loc) (inputs : list Tensor) (kwargs : Kwargs)
| EvSave (prog : Program) (file : string).

Record World := mkWorld {
  heap : Heap;
  trace : list Event
}.

(** Exceptions: the two the Python runtime and torch raise on the paths of
    this file, and whatever a collaborator raises. *)
Inductive Exn :=
| TypeError (msg : string)
| AttributeError (msg : string)
| Raised (e : E).

(** ** State and exceptions *)

Definition M (A : Type) : Type := World -> World * (Exn + A).

Definition ret {A} (a : A) : M A := fun w => (w, inr a).

Definition raise {A} (e : Exn) : M A := fun w => (w, inl e).

Definition bind {A B} (m : M A) (k : A -> M B) : M B :=
  fun w =>
    match m w with
    | (w', inl e) => (w', inl e)
    | (w', inr a) => k a w'
    end.

Definition emit (ev : Event) : M unit :=
  fun w => ({| heap := heap w; trace := trace w ++ [ev] |}, inr tt).

(** Lifts a collaborator that reads the store. *)
Definition call {A} (f : Heap -> E + A) : M A :=
  fun w =>
    match f (heap w) with
    | inl e => (w, inl (Raised e))
    | inr a => (w, inr a)
    end.

Definition when (b : bool) (m : M unit) : M unit := if b then m else ret tt.

(** ** Pieces of the two functions that involve no collaborator *)

(** [print_graph_info(name, mod, inputs)] *)
Definition print_graph_info (name : string) (mod_ : Child) (inputs : list Tensor) : M unit :=
  emit (EvPrintGraphInfo name mod_ inputs).

(** [f"{kwargs['name']}.mxr" if 'name' in kwargs else "prog.mxr"] *)
Definition mxr_name (kwargs : Kwargs) : string :=
  match kwargs !! "name" with
  | Some v => py_str v +:+ ".mxr"
  | None => "prog.mxr"
  end.

(** [optim_gm.named_children()]: torch yields the items of [_modules] in
    insertion order, skipping a module it has already yielded ([memo]). *)
Fixpoint named_children_from (memo : list loc) (ms : list (string * Child))
  : list (string * Child) :=
  match ms with
  | [] => []
  | (name, Subgraph l) :: rest =>
      if decide (l ∈ memo) then named_children_from memo rest
      else (name, Subgraph l) :: named_children_from (l :: memo) rest
  | (name, Compiled m) :: rest => (name, Compiled m) :: named_children_from memo rest
  end.

Definition named_children (gm : GraphModule) : list (string * Child) :=
  named_children_from [] (modules gm).

(** The named children of the object [obj], as the store has them now. *)
Definition read_children (obj : loc) : M (list (string * Child)) :=
  fun w => (w, inr (named_children (heap w obj))).

(** [_modules[name] = value]: an existing key keeps its place, a new key goes
    to the end. *)
Fixpoint set_module (ms : list (string * Child)) (name : string) (value : Child)
  : list (string * Child) :=
  match ms with
  | [] => [(name, value)]
  | (n, c) :: rest =>
      if decide (n = name) then (n, value) :: rest
      else (n, c) :: set_module rest name value
  end.

(** [setattr(obj, name, value)] for a module [value], on the object [obj]. *)
Definition setattr (obj : loc) (name : string) (value : MGXModule) : M unit :=
  fun w =>
    let gm := heap w obj in
    ({| heap := <[obj := {| graph := graph gm;
                            modules := set_module (modules gm) name (Compiled value) |}]> (heap w);
        trace := trace w |}, inr tt).

(** The keywords of the call [lower_subgraph(mod, partition_inputs, name=name,
    **kwargs)]: Python refuses a keyword given twice. *)
Definition bind_keywords (name : string) (kwargs : Kwargs) : M Kwargs :=
  match kwargs !! "name" with
  | Some _ =>
      raise (TypeError "lower_subgraph() got multiple values for keyword argument 'name'")
  | None => ret (<["name" := PyStr name]> kwargs)
  end.

(** ** Vocabulary of the statements *)

(** The graph modules the slots refer to. *)
Definition child_locs (ms : list (string * Child)) : list loc :=
  omap (fun nc => match nc.2 with Subgraph l => Some l | Compiled _ => None end) ms.

(** The data model's shape of a root: a dictionary (no key twice) of children
    that are distinct objects (a tree). *)
Definition tree_shaped (ms : list (string * Child)) : Prop :=
  NoDup ms.*1 ∧ NoDup (child_locs ms).

Definition is_print (ev : Event) : bool :=
  match ev with
  | EvPrintGraphInfo _ _ _ => true
  | _ => false
  end.

(** The names under which graph info was printed, oldest first. *)
Definition printed_names (evs : list Event) : list string :=
  omap (fun ev => match ev with EvPrintGraphInfo name _ _ => Some name | _ => None end) evs.


(** The names of the files written, oldest first. *)
Definition saved_files (evs : list Event) : list string :=
  omap (fun ev => match ev with EvSave _ file => Some file | _ => None end) evs.

(** [announced prev evs]: in [evs], read after the event [prev], every call of
    [lower_subgraph] comes right after the graph info of its module, printed
    under the name the call receives and with the inputs it receives. *)
Fixpoint announced (prev : option Event) (evs : list Event) : Prop :=
  match evs with
  | [] => True
  | ev :: rest =>
      match ev with
      | EvLowerSubgraph l inputs kw =>
          match prev with
          | Some (EvPrintGraphInfo name mod_ inputs') =>
              mod_ = Subgraph l ∧ inputs' = inputs ∧ kw !! "name" = Some (PyStr name)
          | _ => False
          end
      | _ => True
      end ∧ announced (Some ev) rest
  end.

(** The events a run from [w] to [w'] added. *)
Definition events_since (w w' : World) : list Event :=
  drop (length (trace w)) (trace w').

Definition succeeded {A} (r : Exn + A) : bool :=
  match r with
  | inl _ => false
  | inr _ => true
  end.

(** The graph info printed for a child when [verbose] is true. *)
Definition printed (verbose : PyVal) (name : string) (mod_ : Child) (inputs : list Tensor)
  : list Event :=
  if py_truthy verbose then [EvPrintGraphInfo name mod_ inputs] else [].

(** The events of one iteration of the loop, by whether it completes.  An
    iteration whose [lower_subgraph] raises may have written its file before. *)
Inductive child_events (kwargs : Kwargs) (verbose : PyVal) (name : string) (mod_ : Child)
  : bool -> list Event -> Prop :=
| child_no_inputs : child_events kwargs verbose name mod_ false []
| child_no_call inputs :
    child_events kwargs verbose name mod_ false (printed verbose name mod_ inputs)
| child_raised l inputs saved :
    mod_ = Subgraph l →
    kwargs !! "name" = None →
    saved = [] ∨
    (py_truthy (kwargs_get "save_mxr" (PyBool false) kwargs) = true ∧
     ∃ prog, saved = [EvSave prog (name +:+ ".mxr")]) →
    child_events kwargs verbose name mod_ false
      (printed verbose name mod_ inputs ++
       [EvLowerSubgraph l inputs (<["name" := PyStr name]> kwargs)] ++ saved)
| child_lowered l inputs prog :
    mod_ = Subgraph l →
    kwargs !! "name" = None →
    child_events kwargs verbose name mod_ true
      (printed verbose name mod_ inputs ++
       [EvLowerSubgraph l inputs (<["name" := PyStr name]> kwargs)] ++
       (if py_truthy (kwargs_get "save_mxr" (PyBool false) kwargs)
        then [EvSave prog (name +:+ ".mxr")] else [])).

(** What an event of the iteration for the child [name], [mod_] can be. *)
Definition child_event (kwargs : Kwargs) (verbose : PyVal) (name : string) (mod_ : Child)
    (ev : Event) : Prop :=
  match ev with
  | EvPrintGraphInfo n c _ => py_truthy verbose = true ∧ n = name ∧ c = mod_
  | EvRunAtenPasses _ _ _ => False
  | EvLowerSubgraph l _ kw =>
      mod_ = Subgraph l ∧ kwargs !! "name" = None ∧ kw = <["name" := PyStr name]> kwargs
  | EvSave _ file =>
      file = name +:+ ".mxr" ∧ py_truthy (kwargs_get "save_mxr" (PyBool false) kwargs) = true
  end.

(** The events of the loop over [children], by whether it completes. *)
Inductive loop_events (kwargs : Kwargs) (verbose : PyVal)
  : list (string * Child) -> bool -> list Event -> Prop :=
| loop_done : loop_events kwargs verbose [] true []
| loop_raise name mod_ rest evs :
    child_events kwargs verbose name mod_ false evs →
    loop_events kwargs verbose ((name, mod_) :: rest) false evs
| loop_step name mod_ rest ok evs evs' :
    child_events kwargs verbose name mod_ true evs →
    loop_events kwargs verbose rest ok evs' →
    loop_events kwargs verbose ((name, mod_) :: rest) ok (evs ++ evs').

End Model.

Notation "x <- m ;; k" := (bind m (fun x => k))
  (at level 100, m at next level, right associativity).
Notation "m ;;; k" := (bind m (fun _ => k))
  (at level 100, right associativity).

(** ** An instance of the collaborators, for the examples

    A partition whose subgraphs take one input each.  Graphs are the number of
    annotated nodes, programs and interpreters the identity of the module they
    come from; the backend has no lowering for module 2. *)
Module Toy.

Definition propagate (h : @Heap nat nat) (l : loc) (inputs : list nat) : nat * option string :=
  match inputs with
  | [_] => (S (graph (h l)), None)
  | _ => (graph (h l), Some "mismatched input count")
  end.

Definition interpreter (h : @Heap nat nat) (l : loc) (inputs : list nat) (verbose : PyVal)
  : string + loc := inr l.

Definition run (it : loc) : string + loc :=
  if decide (it = 2) then inl "unsupported operation" else inr it.

Definition prog (it : loc) : nat := it.

Definition names (it : loc) : list string := ["x"].

Definition names_ok (it : loc) : option string := None.

Definition write (p : nat) (file : string) : option string := None.

Definition construct (p : nat) (input_names : list string) (fp16 : PyVal) : option string :=
  None.

(** A backend on which the wrapper cannot be set up. *)
Definition failing_construct (p : nat) (input_names : list string) (fp16 : PyVal)
  : option string := Some "compilation failed".

Definition passes (h : @Heap nat nat) (gm : loc) (inputs : list nat) (verbose : PyVal)
  : @Heap nat nat * (string + loc) := (h, inr gm).

(** A pass manager that rejects the graph, and a disk that takes no file. *)
Definition rejecting_passes (h : @Heap nat nat) (gm : loc) (inputs : list nat)
    (verbose : PyVal) : @Heap nat nat * (string + loc) := (h, inl "unsupported graph").

Definition full_disk (p : nat) (file : string) : option string := Some "no space left".

(** A backend that has no interpreter for the subgraph. *)
Definition no_interpreter (h : @Heap nat nat) (l : loc) (inputs : list nat) (verbose : PyVal)
  : string + loc := inl "no converter".

Definition partition_inputs (h : @Heap nat nat) (optim_gm : loc) (mod_ : @Child nat)
    (inputs : list nat) : string + list nat := inr inputs.

(** A store whose object 0 is a root with the given children; every other
    object is a subgraph without children. *)
Definition store (children : list (string * @Child nat)) : @Heap nat nat :=
  fun l => if decide (l = 0) then {| graph := 0; modules := children |}
           else {| graph := 0; modules := [] |}.

Definition world (children : list (string * @Child nat)) : @World nat nat nat :=
  {| heap := store children; trace := [] |}.

Definition two_children : list (string * @Child nat) :=
  [("fused_0", Subgraph 1); ("fused_1", Subgraph 3)].

Definition three_children : list (string * @Child nat) :=
  [("fused_0", Subgraph 1); ("fused_1", Subgraph 2); ("fused_2", Subgraph 3)].

Definition no_options : Kwargs := ∅.

Definition half_precision : Kwargs := {[ "fp16" := PyBool true ]}.

Definition verbose_on : Kwargs := {[ "verbose" := PyBool true ]}.

Definition saving : Kwargs := {[ "save_mxr" := PyBool true ]}.

Definition saving_as_enc : Kwargs := {[ "save_mxr" := PyBool true; "name" := PyStr "enc" ]}.

Definition named_a : Kwargs := {[ "name" := PyStr "a"; "exhaustive_tune" := PyBool true ]}.

Definition named_b : Kwargs := {[ "name" := PyStr "b" ]}.

End Toy.

Section Lowering.

Context {Graph Tensor Program Interp E : Type}.

Local Abbreviation Heap := (@Heap Graph Program).
Local Abbreviation Child := (@Child Program).
Local Abbreviation MGXModule := (@MGXModule Program).
Local Abbreviation M := (@M Graph Tensor Program E).
Local Abbreviation World := (@World Graph Tensor Program).
Local Abbreviation Event := (@Event Tensor Program).
Local Abbreviation Exn := (@Exn E).
Local Abbreviation GraphModule := (@GraphModule Graph Program).

(** ** Collaborators *)

(** [run_aten_passes(gm, example_inputs, verbose=verbose)]: rewrites and
    partitions; gives the store it leaves and the normalized root, or raises. *)
Variable run_aten_passes : Heap -> loc -> list Tensor -> PyVal -> Heap * (E + loc).

(** [get_partition_inputs(optim_gm, mod, example_inputs)]: reads the store. *)
Variable get_partition_inputs : Heap -> loc -> Child -> list Tensor -> E + list Tensor.

(** [ShapeProp(module).propagate]: annotates the nodes of [module]'s
    graph in place; gives the graph it leaves and the exception, if it raises. *)
Variable ShapeProp_propagate : Heap -> loc -> list Tensor -> Graph * option E.

(** [MGXInterpreter(module, inputs, verbose_log=verbose)] and [interpreter.run()] *)
Variable MGXInterpreter : Heap -> loc -> list Tensor -> PyVal -> E + Interp.
Variable Interp_run : Interp -> E + Interp.
Variable Interp_program : Interp -> Program.

(** [interpreter.get_input_names()]: the names the interpreter recorded, and
    the exception, if the call raises. *)
Variable Interp_get_input_names : Interp -> list string.
Variable Interp_get_input_names_raises : Interp -> option E.

(** [migraphx.save(program, name)]: the exception, if the write fails. *)
Variable migraphx_save : Program -> string -> option E.

(** [MGXModule(program=..., input_names=..., quantize_fp16=...)]: the
    exception, if the constructor raises. *)
Variable MGXModule_raises : Program -> list string -> PyVal -> option E.

(** [ShapeProp(module).propagate] on the object [module]: the graph
    of that object is replaced in the store, also when the call raises. *)
Definition shape_prop (module : loc) (inputs : list Tensor) : M unit :=
  fun w =>
    let '(g, err) := ShapeProp_propagate (heap w) module inputs in
    let gm := heap w module in
    let w' := {| heap := <[module := {| graph := g; modules := modules gm |}]> (heap w);
                 trace := trace w |} in
    match err with
    | Some e => (w', inl (Raised e))
    | None => (w', inr tt)
    end.

(** [migraphx.save(prog, file)] *)
Definition save (prog : Program) (file : string) : M unit :=
  match migraphx_save prog file with
  | Some e => raise (Raised e)
  | None => emit (EvSave prog file)
  end.

(** [interpreter.get_input_names()] *)
Definition get_input_names (interpreter : Interp) : M (list string) :=
  match Interp_get_input_names_raises interpreter with
  | Some e => raise (Raised e)
  | None => ret (Interp_get_input_names interpreter)
  end.

(** [MGXModule(program=prog, input_names=names, quantize_fp16=fp16)] *)
Definition new_MGXModule (prog : Program) (names : list string) (fp16 : PyVal)
  : M MGXModule :=
  match MGXModule_raises prog names fp16 with
  | Some e => raise (Raised e)
  | None => ret {| program := prog; input_names := names; quantize_fp16 := fp16 |}
  end.

(** ** [lower_subgraph] *)

Definition lower_subgraph (module : loc) (inputs : list Tensor) (kwargs : Kwargs)
  : M MGXModule :=
  shape_prop module inputs ;;;
  let verbose := kwargs_get "verbose" (PyBool false) kwargs in
  let fp16 := kwargs_get "fp16" (PyBool false) kwargs in
  let save_mxr := kwargs_get "save_mxr" (PyBool false) kwargs in
  interpreter <- call (fun h => MGXInterpreter h module inputs verbose) ;;
  interpreter <- call (fun _ => Interp_run interpreter) ;;
  when (py_truthy save_mxr)
       (let name := mxr_name kwargs in
        save (Interp_program interpreter) name) ;;;
  input_names <- get_input_names interpreter ;;
  mgx_module <- new_MGXModule (Interp_program interpreter) input_names fp16 ;;
  ret mgx_module.

(** ** [lower_aten_to_mgx] *)

(** [run_aten_passes(gm, example_inputs, verbose=verbose)] *)
Definition aten_passes (gm : loc) (example_inputs : list Tensor) (verbose : PyVal) : M loc :=
  emit (EvRunAtenPasses gm example_inputs verbose) ;;;
  fun w =>
    let '(h, r) := run_aten_passes (heap w) gm example_inputs verbose in
    let w' := {| heap := h; trace := trace w |} in
    match r with
    | inl e => (w', inl (Raised e))
    | inr optim_gm => (w', inr optim_gm)
    end.

(** The call [lower_subgraph(mod, partition_inputs, name=name, **kwargs)].
    [lower_subgraph] takes a [torch.fx.GraphModule]; handed a compiled wrapper,
    its first statement fails in torch, which finds no graph on it. *)
Definition call_lower_subgraph (mod_ : Child) (partition_inputs : list Tensor)
    (name : string) (kwargs : Kwargs) : M MGXModule :=
  kw <- bind_keywords name kwargs ;;
  match mod_ with
  | Subgraph l =>
      emit (EvLowerSubgraph l partition_inputs kw) ;;;
      lower_subgraph l partition_inputs kw
  | Compiled _ => raise (AttributeError "'MGXModule' object has no attribute 'graph'")
  end.

(** The body of the loop over the named children. *)
Definition lower_child (optim_gm : loc) (example_inputs : list Tensor) (kwargs : Kwargs)
    (verbose : PyVal) (child : string * Child) : M unit :=
  let '(name, mod_) := child in
  partition_inputs <- call (fun h => get_partition_inputs h optim_gm mod_ example_inputs) ;;
  when (py_truthy verbose) (print_graph_info name mod_ partition_inputs) ;;;
  mgx_mod <- call_lower_subgraph mod_ partition_inputs name kwargs ;;
  setattr optim_gm name mgx_mod.

(** [for name, mod in optim_gm.named_children(): ...].  The body replaces the
    value of the key it was given and of no other, so the items still to come
    are those read when the loop starts. *)
Fixpoint lower_children (optim_gm : loc) (example_inputs : list Tensor) (kwargs : Kwargs)
    (verbose : PyVal) (children : list (string * Child)) : M unit :=
  match children with
  | [] => ret tt
  | child :: rest =>
      lower_child optim_gm example_inputs kwargs verbose child ;;;
      lower_children optim_gm example_inputs kwargs verbose rest
  end.

Definition lower_aten_to_mgx (gm : loc) (example_inputs : list Tensor) (kwargs : Kwargs)
  : M loc :=
  let verbose := kwargs_get "verbose" (PyBool false) kwargs in
  when (py_truthy verbose) (print_graph_info "Traced Model" (Subgraph gm) example_inputs) ;;;
  optim_gm <- aten_passes gm example_inputs verbose ;;
  children <- read_children optim_gm ;;
  lower_children optim_gm example_inputs kwargs verbose children ;;;
  ret optim_gm.

(** The first statements of [lower_aten_to_mgx], up to the normalized root. *)
Definition normalize (gm : loc) (example_inputs : list Tensor) (kwargs : Kwargs) : M loc :=
  let verbose := kwargs_get "verbose" (PyBool false) kwargs in
  when (py_truthy verbose) (print_graph_info "Traced Model" (Subgraph gm) example_inputs) ;;;
  aten_passes gm example_inputs verbose.

(** The world after the statements of [lower_subgraph] up to [migraphx.save],
    when none of them raised. *)
Definition after_save (module : loc) (inputs : list Tensor) (kwargs : Kwargs) (w : World)
    (interpreter : Interp) : World :=
  if py_truthy (kwargs_get "save_mxr" (PyBool false) kwargs)
  then {| heap := heap (shape_prop module inputs w).1;
          trace := trace w ++ [EvSave (Interp_program interpreter) (mxr_name kwargs)] |}
  else (shape_prop module inputs w).1.

(** Every path of [lower_subgraph], by what the collaborators answer. *)
Inductive lowered (module : loc) (inputs : list Tensor) (kwargs : Kwargs) (w : World)
  : World -> Exn + MGXModule -> Prop :=
| lowered_propagate_raises g e :
    ShapeProp_propagate (heap w) module inputs = (g, Some e) →
    lowered module inputs kwargs w (shape_prop module inputs w).1 (inl (Raised e))
| lowered_interpreter_raises g e :
    ShapeProp_propagate (heap w) module inputs = (g, None) →
    MGXInterpreter (heap (shape_prop module inputs w).1) module inputs
      (kwargs_get "verbose" (PyBool false) kwargs) = inl e →
    lowered module inputs kwargs w (shape_prop module inputs w).1 (inl (Raised e))
| lowered_run_raises g it e :
    ShapeProp_propagate (heap w) module inputs = (g, None) →
    MGXInterpreter (heap (shape_prop module inputs w).1) module inputs
      (kwargs_get "verbose" (PyBool false) kwargs) = inr it →
    Interp_run it = inl e →
    lowered module inputs kwargs w (shape_prop module inputs w).1 (inl (Raised e))
| lowered_save_raises g it it' e :
    ShapeProp_propagate (heap w) module inputs = (g, None) →
    MGXInterpreter (heap (shape_prop module inputs w).1) module inputs
      (kwargs_get "verbose" (PyBool false) kwargs) = inr it →
    Interp_run it = inr it' →
    py_truthy (kwargs_get "save_mxr" (PyBool false) kwargs) = true →
    migraphx_save (Interp_program it') (mxr_name kwargs) = Some e →
    lowered module inputs kwargs w (shape_prop module inputs w).1 (inl (Raised e))
| lowered_names_raise g it it' e :
    ShapeProp_propagate (heap w) module inputs = (g, None) →
    MGXInterpreter (heap (shape_prop module inputs w).1) module inputs
      (kwargs_get "verbose" (PyBool false) kwargs) = inr it →
    Interp_run it = inr it' →
    (py_truthy (kwargs_get "save_mxr" (PyBool false) kwargs) = true →
     migraphx_save (Interp_program it') (mxr_name kwargs) = None) →
    Interp_get_input_names_raises it' = Some e →
    lowered module inputs kwargs w (after_save module inputs kwargs w it') (inl (Raised e))
| lowered_wrapper_raises g it it' e :
    ShapeProp_propagate (heap w) module inputs = (g, None) →
    MGXInterpreter (heap (shape_prop module inputs w).1) module inputs
      (kwargs_get "verbose" (PyBool false) kwargs) = inr it →
    Interp_run it = inr it' →
    (py_truthy (kwargs_get "save_mxr" (PyBool false) kwargs) = true →
     migraphx_save (Interp_program it') (mxr_name kwargs) = None) →
    Interp_get_input_names_raises it' = None →
    MGXModule_raises (Interp_program it') (Interp_get_input_names it')
      (kwargs_get "fp16" (PyBool false) kwargs) = Some e →
    lowered module inputs kwargs w (after_save module inputs kwargs w it') (inl (Raised e))
| lowered_returns g it it' :
    ShapeProp_propagate (heap w) module inputs = (g, None) →
    MGXInterpreter (heap (shape_prop module inputs w).1) module inputs
      (kwargs_get "verbose" (PyBool false) kwargs) = inr it →
    Interp_run it = inr it' →
    (py_truthy (kwargs_get "save_mxr" (PyBool false) kwargs) = true →
     migraphx_save (Interp_program it') (mxr_name kwargs) = None) →
    Interp_get_input_names_raises it' = None →
    MGXModule_raises (Interp_program it') (Interp_get_input_names it')
      (kwargs_get "fp16" (PyBool false) kwargs) = None →
    lowered module inputs kwargs w (after_save module inputs kwargs w it')
      (inr {| program := Interp_program it';
              input_names := Interp_get_input_names it';
              quantize_fp16 := kwargs_get "fp16" (PyBool false) kwargs |}).

(** ** [lower_subgraph]: what each path leaves *)

Lemma heap_insert_eq (h : Heap) (l : loc) (x : GraphModule) : (<[l := x]> h) l = x.
Proof. apply fn_lookup_insert. Qed.

Lemma heap_insert_ne (h : Heap) (l l' : loc) (x : GraphModule) :
  l ≠ l' → (<[l := x]> h) l' = h l'.
Proof. apply fn_lookup_insert_ne. Qed.

(** The world [ShapeProp] leaves. *)
Lemma shape_prop_world module inputs w :
  (shape_prop module inputs w).1 =
  {| heap := <[module := {| graph := (ShapeProp_propagate (heap w) module inputs).1;
                            modules := modules (heap w module) |}]> (heap w);
     trace := trace w |}.
Proof.
  unfold shape_prop. destruct (ShapeProp_propagate _ _ _) as [g [e|]]; reflexivity.
Qed.

Lemma lower_subgraph_propagate_raises module inputs kwargs w g e :
  ShapeProp_propagate (heap w) module inputs = (g, Some e) →
  lower_subgraph module inputs kwargs w = ((shape_prop module inputs w).1, inl (Raised e)).
Proof.
  intros Hp. unfold lower_subgraph, bind, shape_prop. rewrite Hp. reflexivity.
Qed.

Lemma lower_subgraph_interpreter_raises module inputs kwargs w g e :
  ShapeProp_propagate (heap w) module inputs = (g, None) →
  MGXInterpreter (heap (shape_prop module inputs w).1) module inputs
    (kwargs_get "verbose" (PyBool false) kwargs) = inl e →
  lower_subgraph module inputs kwargs w = ((shape_prop module inputs w).1, inl (Raised e)).
Proof.
  intros Hp. unfold lower_subgraph, bind, shape_prop, call. rewrite Hp. cbn.
  intros ->. reflexivity.
Qed.

Lemma lower_subgraph_run_raises module inputs kwargs w g it e :
  ShapeProp_propagate (heap w) module inputs = (g, None) →
  MGXInterpreter (heap (shape_prop module inputs w).1) module inputs
    (kwargs_get "verbose" (PyBool false) kwargs) = inr it →
  Interp_run it = inl e →
  lower_subgraph module inputs kwargs w = ((shape_prop module inputs w).1, inl (Raised e)).
Proof.
  intros Hp. unfold lower_subgraph, bind, shape_prop, call. rewrite Hp. cbn.
  intros -> ->. reflexivity.
Qed.

(** The statements of [lower_subgraph] after the interpreter has run. *)
Lemma lower_subgraph_after_run module inputs kwargs w g it it' :
  ShapeProp_propagate (heap w) module inputs = (g, None) →
  MGXInterpreter (heap (shape_prop module inputs w).1) module inputs
    (kwargs_get "verbose" (PyBool false) kwargs) = inr it →
  Interp_run it = inr it' →
  lower_subgraph module inputs kwargs w =
  let finish : World * (Exn + MGXModule) :=
    match Interp_get_input_names_raises it' with
    | Some e => (after_save module inputs kwargs w it', inl (Raised e))
    | None =>
        match MGXModule_raises (Interp_program it') (Interp_get_input_names it')
                (kwargs_get "fp16" (PyBool false) kwargs) with
        | Some e => (after_save module inputs kwargs w it', inl (Raised e))
        | None =>
            (after_save module inputs kwargs w it',
             inr {| program := Interp_program it';
                    input_names := Interp_get_input_names it';
                    quantize_fp16 := kwargs_get "fp16" (PyBool false) kwargs |})
        end
    end in
  if py_truthy (kwargs_get "save_mxr" (PyBool false) kwargs) then
    match migraphx_save (Interp_program it') (mxr_name kwargs) with
    | Some e => ((shape_prop module inputs w).1, inl (Raised e))
    | None => finish
    end
  else finish.
Proof.
  intros Hp Hi Hr. cbv zeta. unfold after_save.
  rewrite shape_prop_world in Hi |- *. rewrite Hp in Hi |- *. cbn [fst heap] in Hi |- *.
  unfold lower_subgraph, get_input_names, new_MGXModule, bind, shape_prop, call, when,
    save, emit, ret, raise.
  rewrite Hp. cbn [heap trace]. rewrite Hi, Hr.
  destruct (py_truthy (kwargs_get "save_mxr" (PyBool false) kwargs)).
  - destruct (migraphx_save _ _); [reflexivity|]. cbn [heap trace].
    destruct (Interp_get_input_names_raises it'); [reflexivity|].
    destruct (MGXModule_raises _ _ _); reflexivity.
  - destruct (Interp_get_input_names_raises it'); [reflexivity|].
    destruct (MGXModule_raises _ _ _); reflexivity.
Qed.

Lemma lower_subgraph_lowered module inputs kwargs w :
  lowered module inputs kwargs w
    (lower_subgraph module inputs kwargs w).1 (lower_subgraph module inputs kwargs w).2.
Proof.
  destruct (ShapeProp_propagate (heap w) module inputs) as [g [e|]] eqn:Hp.
  { rewrite (lower_subgraph_propagate_raises _ _ _ _ _ _ Hp). eapply lowered_propagate_raises, Hp. }
  destruct (MGXInterpreter (heap (shape_prop module inputs w).1) module inputs
              (kwargs_get "verbose" (PyBool false) kwargs)) as [e|it] eqn:Hi.
  { rewrite (lower_subgraph_interpreter_raises _ _ _ _ _ _ Hp Hi).
    eapply lowered_interpreter_raises; eauto. }
  destruct (Interp_run it) as [e|it'] eqn:Hr.
  { rewrite (lower_subgraph_run_raises _ _ _ _ _ _ _ Hp Hi Hr).
    eapply lowered_run_raises; eauto. }
  rewrite (lower_subgraph_after_run _ _ _ _ _ _ _ Hp Hi Hr). cbv zeta.
  assert (∀ saved : py_truthy (kwargs_get "save_mxr" (PyBool false) kwargs) = true →
                    migraphx_save (Interp_program it') (mxr_name kwargs) = None,
            lowered module inputs kwargs w
              (match Interp_get_input_names_raises it' with
               | Some e => (after_save module inputs kwargs w it', inl (Raised e))
               | None =>
                   match MGXModule_raises (Interp_program it') (Interp_get_input_names it')
                           (kwargs_get "fp16" (PyBool false) kwargs) with
                   | Some e => (after_save module inputs kwargs w it', inl (Raised e))
                   | None =>
                       (after_save module inputs kwargs w it',
                        inr {| program := Interp_program it';
                               input_names := Interp_get_input_names it';
                               quantize_fp16 := kwargs_get "fp16" (PyBool false) kwargs |})
                   end
               end).1
              (match Interp_get_input_names_raises it' with
               | Some e => (after_save module inputs kwargs w it', inl (Raised e))
               | None =>
                   match MGXModule_raises (Interp_program it') (Interp_get_input_names it')
                           (kwargs_get "fp16" (PyBool false) kwargs) with
                   | Some e => (after_save module inputs kwargs w it', inl (Raised e))
                   | None =>
                       (after_save module inputs kwargs w it',
                        inr {| program := Interp_program it';
                               input_names := Interp_get_input_names it';
                               quantize_fp16 := kwargs_get "fp16" (PyBool false) kwargs |})
                   end
               end).2) as Hfinish.
  { intros Hsaved.
    destruct (Interp_get_input_names_raises it') as [e|] eqn:Hg.
    { eapply lowered_names_raise; eauto. }
    destruct (MGXModule_raises _ _ _) as [e|] eqn:Hc.
    { eapply lowered_wrapper_raises; eauto. }
    eapply lowered_returns; eauto. }
  destruct (py_truthy (kwargs_get "save_mxr" (PyBool false) kwargs)) eqn:Hs.
  - destruct (migraphx_save (Interp_program it') (mxr_name kwargs)) as [e|] eqn:Hw.
    + eapply lowered_save_raises; eauto.
    + apply Hfinish. reflexivity.
  - apply Hfinish. discriminate.
Qed.

Lemma kwargs_get_truthy key kwargs :
  py_truthy (kwargs_get key (PyBool false) kwargs) = true ↔
  ∃ v, kwargs !! key = Some v ∧ py_truthy v = true.
Proof.
  unfold kwargs_get. destruct (kwargs !! key) as [v|]; cbn.
  - split; [eauto | intros (v' & [= <-] & Hv); exact Hv].
  - split; [discriminate | intros (v' & [=] & _)].
Qed.

(** ** The loop over the children *)

Lemma events_since_app (w w' : World) evs :
  trace w' = trace w ++ evs → events_since w w' = evs.
Proof. unfold events_since. intros ->. apply drop_app_length. Qed.

Lemma after_save_heap module inputs kwargs w it' :
  heap (after_save module inputs kwargs w it') = heap (shape_prop module inputs w).1.
Proof. unfold after_save. destruct (py_truthy _); reflexivity. Qed.

Lemma after_save_trace module inputs kwargs w it' :
  trace (after_save module inputs kwargs w it') =
  trace w ++ if py_truthy (kwargs_get "save_mxr" (PyBool false) kwargs)
             then [EvSave (Interp_program it') (mxr_name kwargs)] else [].
Proof.
  unfold after_save. destruct (py_truthy _); [reflexivity|].
  rewrite shape_prop_world, app_nil_r. reflexivity.
Qed.

(** What a call of [lower_subgraph] adds to the trace: nothing, or the file it
    saved; the latter also when a later statement raised. *)
Lemma lower_subgraph_events module inputs kwargs w :
  ∃ saved,
    trace (lower_subgraph module inputs kwargs w).1 = trace w ++ saved ∧
    (saved = [] ∨
     py_truthy (kwargs_get "save_mxr" (PyBool false) kwargs) = true ∧
     ∃ prog, saved = [EvSave prog (mxr_name kwargs)]) ∧
    (∀ m, (lower_subgraph module inputs kwargs w).2 = inr m →
          saved = if py_truthy (kwargs_get "save_mxr" (PyBool false) kwargs)
                  then [EvSave (program m) (mxr_name kwargs)] else []).
Proof.
  assert (∀ it' : Interp,
            (if py_truthy (kwargs_get "save_mxr" (PyBool false) kwargs)
             then [EvSave (Tensor:=Tensor) (Interp_program it') (mxr_name kwargs)] else [])
            = [] ∨
            py_truthy (kwargs_get "save_mxr" (PyBool false) kwargs) = true ∧
            ∃ prog, (if py_truthy (kwargs_get "save_mxr" (PyBool false) kwargs)
                     then [EvSave (Tensor:=Tensor) (Interp_program it') (mxr_name kwargs)]
                     else [])
                    = [EvSave prog (mxr_name kwargs)]) as Hshape.
  { intros it'. destruct (py_truthy _); [right|left; reflexivity].
    split; [reflexivity|]. eexists. reflexivity. }
  destruct (lower_subgraph_lowered module inputs kwargs w)
    as [g e Hp|g e Hp Hi|g it e Hp Hi Hr|g it it' e Hp Hi Hr Hs Hw
       |g it it' e Hp Hi Hr Hw Hg|g it it' e Hp Hi Hr Hw Hg Hc
       |g it it' Hp Hi Hr Hw Hg Hc]; cbn [fst snd].
  1-4: exists []; rewrite shape_prop_world, app_nil_r;
       (split; [reflexivity|split; [left; reflexivity|discriminate]]).
  - eexists. split; [apply after_save_trace|]. split; [apply Hshape|discriminate].
  - eexists. split; [apply after_save_trace|]. split; [apply Hshape|discriminate].
  - eexists. split; [apply after_save_trace|]. split; [apply Hshape|].
    intros m [= <-]. reflexivity.
Qed.

Lemma lower_subgraph_modules module inputs kwargs w o :
  modules (heap (lower_subgraph module inputs kwargs w).1 o) = modules (heap w o).
Proof.
  assert (modules (heap (shape_prop module inputs w).1 o) = modules (heap w o)) as Hs.
  { rewrite shape_prop_world. cbn [heap].
    destruct (decide (module = o)) as [->|Hne].
    - rewrite heap_insert_eq. reflexivity.
    - rewrite heap_insert_ne by exact Hne. reflexivity. }
  destruct (lower_subgraph_lowered module inputs kwargs w); cbn [fst];
    rewrite ?after_save_heap; exact Hs.
Qed.

Lemma mxr_name_bound name (kwargs : Kwargs) :
  mxr_name (<["name" := PyStr name]> kwargs) = name +:+ ".mxr".
Proof. unfold mxr_name. rewrite lookup_insert_eq. reflexivity. Qed.

Lemma save_mxr_bound name (kwargs : Kwargs) :
  kwargs_get "save_mxr" (PyBool false) (<["name" := PyStr name]> kwargs) =
  kwargs_get "save_mxr" (PyBool false) kwargs.
Proof. unfold kwargs_get. rewrite lookup_insert_ne by discriminate. reflexivity. Qed.

(** One iteration: its events, and what it does to the children of every
    object. *)
Lemma lower_child_spec optim_gm example_inputs kwargs verbose name mod_ w :
  let res := lower_child optim_gm example_inputs kwargs verbose (name, mod_) w in
  (∃ evs, trace res.1 = trace w ++ evs ∧
          child_events kwargs verbose name mod_ (succeeded res.2) evs) ∧
  (∀ o, o ≠ optim_gm → modules (heap res.1 o) = modules (heap w o)) ∧
  match res.2 with
  | inr _ => ∃ m, modules (heap res.1 optim_gm) =
                  set_module (modules (heap w optim_gm)) name (Compiled m)
  | inl _ => modules (heap res.1 optim_gm) = modules (heap w optim_gm)
  end.
Proof.
  cbv zeta. unfold lower_child, bind, call.
  destruct (get_partition_inputs (heap w) optim_gm mod_ example_inputs) as [e|pin].
  { cbn. split; [|split; [reflexivity|reflexivity]].
    exists []. rewrite app_nil_r. split; [reflexivity|constructor]. }
  set (w1 := {| heap := heap w; trace := trace w ++ printed verbose name mod_ pin |}).
  assert (when (py_truthy verbose) (print_graph_info name mod_ pin) w = (w1, inr tt)) as ->.
  { unfold when, print_graph_info, emit, ret, w1, printed.
    destruct (py_truthy verbose); [reflexivity|]. rewrite app_nil_r. destruct w; reflexivity. }
  unfold call_lower_subgraph, bind, bind_keywords.
  destruct (kwargs !! "name") as [v|] eqn:Hn.
  { cbn. split; [|split; [reflexivity|reflexivity]].
    eexists. split; [reflexivity|apply child_no_call]. }
  unfold ret. destruct mod_ as [l|m0].
  2:{ cbn. split; [|split; [reflexivity|reflexivity]].
      eexists. split; [reflexivity|apply child_no_call]. }
  set (kw := <["name" := PyStr name]> kwargs).
  unfold emit. cbn [heap trace w1].
  set (w2 := {| heap := heap w;
                trace := (trace w ++ printed verbose name (Subgraph l) pin) ++
                         [EvLowerSubgraph l pin kw] |}).
  destruct (lower_subgraph_events l pin kw w2) as (saved & Hev & Hsaved & Hret).
  pose proof (lower_subgraph_modules l pin kw w2) as Hmod.
  destruct (lower_subgraph l pin kw w2) as [w3 [e|m]]; cbn [fst snd] in *;
    unfold kw in Hsaved, Hret; rewrite save_mxr_bound, mxr_name_bound in Hsaved, Hret.
  - split; [|split].
    + eexists. split; [rewrite Hev; unfold w2; cbn [trace]; rewrite <- !app_assoc; reflexivity|].
      apply child_raised; [reflexivity|exact Hn|exact Hsaved].
    + intros o _. apply Hmod.
    + apply Hmod.
  - unfold setattr. cbn [fst snd heap trace succeeded]. split; [|split].
    + eexists. split.
      * rewrite Hev, (Hret m eq_refl). unfold w2. cbn [trace]. rewrite <- !app_assoc.
        reflexivity.
      * apply (child_lowered _ _ _ _ l pin (program m)); [reflexivity|exact Hn].
    + intros o Hne. rewrite heap_insert_ne by (intros ->; apply Hne; reflexivity). apply Hmod.
    + exists m. rewrite heap_insert_eq. cbn [modules]. rewrite Hmod. reflexivity.
Qed.

Lemma lower_children_events optim_gm example_inputs kwargs verbose children w :
  let res := lower_children optim_gm example_inputs kwargs verbose children w in
  ∃ evs, trace res.1 = trace w ++ evs ∧
         loop_events kwargs verbose children (succeeded res.2) evs.
Proof.
  cbv zeta. revert w. induction children as [|[name mod_] rest IH]; intros w.
  - exists []. cbn. rewrite app_nil_r. split; [reflexivity|constructor].
  - cbn [lower_children]. unfold bind.
    destruct (lower_child_spec optim_gm example_inputs kwargs verbose name mod_ w)
      as ((evs & Ht & Hc) & _).
    destruct (lower_child _ _ _ _ _ w) as [w1 [e|[]]]; cbn [fst snd succeeded] in *.
    + exists evs. split; [exact Ht|]. apply loop_raise, Hc.
    + destruct (IH w1) as (evs' & Ht' & Hl).
      exists (evs ++ evs'). split.
      * rewrite Ht', Ht, app_assoc. reflexivity.
      * eapply loop_step; eassumption.
Qed.

Lemma lower_children_app optim_gm example_inputs kwargs verbose pre post w :
  lower_children optim_gm example_inputs kwargs verbose (pre ++ post) w =
  (lower_children optim_gm example_inputs kwargs verbose pre ;;;
   lower_children optim_gm example_inputs kwargs verbose post) w.
Proof.
  revert w. induction pre as [|c pre IH]; intros w; [reflexivity|].
  cbn [app lower_children]. unfold bind.
  destruct (lower_child _ _ _ _ c w) as [w1 [e|[]]]; [reflexivity|].
  rewrite IH. reflexivity.
Qed.

Lemma set_module_middle (done rest : list (string * Child)) name c value :
  name ∉ done.*1 →
  set_module (done ++ (name, c) :: rest) name value = done ++ (name, value) :: rest.
Proof.
  induction done as [|[n c'] done IH]; intros Hn; cbn.
  - rewrite decide_True by reflexivity. reflexivity.
  - cbn in Hn. rewrite decide_False by (intros ->; apply Hn; left).
    rewrite IH; [reflexivity|]. intros Hin. apply Hn. right. exact Hin.
Qed.

(** A loop that completes has replaced, in place, the slots of the children it
    went through by compiled wrappers, and left the other slots alone. *)
Lemma lower_children_modules optim_gm example_inputs kwargs verbose children :
  ∀ done rest w,
  modules (heap w optim_gm) = done ++ children ++ rest →
  NoDup (done ++ children ++ rest).*1 →
  let res := lower_children optim_gm example_inputs kwargs verbose children w in
  succeeded res.2 = true →
  ∃ children', modules (heap res.1 optim_gm) = done ++ children' ++ rest ∧
               children'.*1 = children.*1 ∧
               Forall (fun nc => is_compiled nc.2 = true) children'.
Proof.
  cbv zeta. induction children as [|[name mod_] children IH]; intros done rest w Hm Hnd Hok.
  - exists []. cbn. split; [exact Hm|]. split; [reflexivity|constructor].
  - cbn [lower_children] in *. unfold bind in *.
    destruct (lower_child_spec optim_gm example_inputs kwargs verbose name mod_ w)
      as (_ & _ & Hs).
    destruct (lower_child _ _ _ _ _ w) as [w1 [e|[]]]; cbn [fst snd] in *; [discriminate|].
    destruct Hs as (m & Hs).
    assert (name ∉ done.*1) as Hfresh.
    { rewrite fmap_app in Hnd. apply NoDup_app in Hnd as (_ & Hd & _).
      intros Hin. apply (Hd _ Hin). cbn. left. }
    rewrite Hm in Hs. cbn [app] in Hs. rewrite set_module_middle in Hs by exact Hfresh.
    destruct (IH (done ++ [(name, Compiled m)]) rest w1) as (cs' & Hm' & Hn' & Hc').
    + rewrite Hs, <- app_assoc. reflexivity.
    + revert Hnd. rewrite <- app_assoc.
      repeat (rewrite fmap_app || rewrite fmap_cons). cbn. trivial.
    + exact Hok.
    + exists ((name, Compiled m) :: cs'). split; [|split].
      * rewrite Hm', <- app_assoc. reflexivity.
      * cbn. rewrite Hn'. reflexivity.
      * constructor; [reflexivity|exact Hc'].
Qed.

(** [named_children] yields every slot of a tree. *)
Lemma named_children_from_tree memo (ms : list (string * Child)) :
  NoDup (child_locs ms) →
  (∀ l, l ∈ memo → l ∉ child_locs ms) →
  named_children_from memo ms = ms.
Proof.
  revert memo. induction ms as [|[name [l|m]] ms IH]; intros memo Hnd Hdis; cbn.
  - reflexivity.
  - unfold child_locs in Hnd, Hdis. cbn in Hnd, Hdis. apply NoDup_cons in Hnd as [Hl Hnd].
    rewrite decide_False by (intros Hin; apply (Hdis _ Hin); left).
    rewrite IH; [reflexivity|exact Hnd|].
    intros l' [->|Hin]%elem_of_cons; [exact Hl|].
    intros Hin'. apply (Hdis _ Hin). right. exact Hin'.
  - rewrite IH; [reflexivity|exact Hnd|exact Hdis].
Qed.

Lemma named_children_tree (gm : GraphModule) :
  tree_shaped (modules gm) → named_children gm = modules gm.
Proof.
  intros [_ Hnd]. apply named_children_from_tree; [exact Hnd|].
  intros l Hin. inversion Hin.
Qed.

(** ** [lower_aten_to_mgx] as normalization followed by the loop *)

Lemma normalize_spec gm example_inputs kwargs w :
  let verbose := kwargs_get "verbose" (PyBool false) kwargs in
  let res := normalize gm example_inputs kwargs w in
  trace res.1 =
    trace w ++ printed verbose "Traced Model" (Subgraph gm) example_inputs ++
    [EvRunAtenPasses gm example_inputs verbose] ∧
  heap res.1 = (run_aten_passes (heap w) gm example_inputs verbose).1 ∧
  res.2 = match (run_aten_passes (heap w) gm example_inputs verbose).2 with
          | inl e => inl (Raised e)
          | inr optim_gm => inr optim_gm
          end.
Proof.
  cbv zeta. unfold normalize, bind, when, print_graph_info, aten_passes, bind, emit, ret, printed.
  destruct (py_truthy _); cbn [heap trace];
    destruct (run_aten_passes _ _ _ _) as [h [e|r]]; cbn;
    rewrite <- ?app_assoc; repeat split; reflexivity.
Qed.

Lemma lower_aten_to_mgx_unfold gm example_inputs kwargs w :
  lower_aten_to_mgx gm example_inputs kwargs w =
  match normalize gm example_inputs kwargs w with
  | (w1, inl e) => (w1, inl e)
  | (w1, inr optim_gm) =>
      match lower_children optim_gm example_inputs kwargs
              (kwargs_get "verbose" (PyBool false) kwargs)
              (named_children (heap w1 optim_gm)) w1 with
      | (w2, inl e) => (w2, inl e)
      | (w2, inr _) => (w2, inr optim_gm)
      end
  end.
Proof.
  unfold lower_aten_to_mgx, normalize, read_children, bind.
  destruct (when _ _ w) as [w0 [e|[]]]; [reflexivity|].
  destruct (aten_passes _ _ _ w0) as [w1 [e|r]]; [reflexivity|].
  destruct (lower_children _ _ _ _ _ w1) as [w2 [e|[]]]; reflexivity.
Qed.

(** ** What the events of the loop say *)

Lemma child_events_each kwargs verbose name (mod_ : Child) ok (evs : list Event) :
  child_events kwargs verbose name mod_ ok evs →
  Forall (child_event kwargs verbose name mod_) evs.
Proof.
  assert (∀ inputs : list Tensor,
            Forall (child_event (Tensor:=Tensor) kwargs verbose name mod_)
              (printed verbose name mod_ inputs)) as Hp.
  { intros inputs. unfold printed. destruct (py_truthy verbose) eqn:Hv; repeat constructor.
    exact Hv. }
  destruct 1 as [|inputs|l inputs saved Hm Hn Hsaved|l inputs prog Hm Hn].
  - constructor.
  - apply Hp.
  - apply Forall_app. split; [apply Hp|]. constructor; [repeat split; assumption|].
    destruct Hsaved as [->|(Hs & prog & ->)]; repeat constructor. exact Hs.
  - apply Forall_app. split; [apply Hp|]. constructor; [repeat split; assumption|].
    destruct (py_truthy (kwargs_get "save_mxr" _ _)) eqn:Hs; repeat constructor. exact Hs.
Qed.

Lemma loop_events_each kwargs verbose (children : list (string * Child)) ok
    (evs : list Event) :
  loop_events kwargs verbose children ok evs →
  Forall (fun ev => ∃ name mod_, (name, mod_) ∈ children ∧
                      child_event kwargs verbose name mod_ ev) evs.
Proof.
  induction 1 as [|name mod_ rest evs Hc|name mod_ rest ok evs evs' Hc _ IH].
  - constructor.
  - eapply Forall_impl; [apply (child_events_each _ _ _ _ _ _ Hc)|].
    intros ev Hev. exists name, mod_. split; [left|exact Hev].
  - apply Forall_app. split.
    + eapply Forall_impl; [apply (child_events_each _ _ _ _ _ _ Hc)|].
      intros ev Hev. exists name, mod_. split; [left|exact Hev].
    + eapply Forall_impl; [exact IH|].
      intros ev (n & c & Hin & Hev). exists n, c. split; [right; exact Hin|exact Hev].
Qed.

Lemma announced_app prev (evs evs' : list Event) :
  announced prev evs → (∀ prev', announced prev' evs') → announced prev (evs ++ evs').
Proof.
  revert prev. induction evs as [|ev evs IH]; intros prev H H'; cbn.
  - apply H'.
  - destruct H as [Hev H]. split; [exact Hev|]. apply IH; assumption.
Qed.

Lemma child_events_announced kwargs verbose name (mod_ : Child) ok (evs : list Event) prev :
  py_truthy verbose = true →
  child_events kwargs verbose name mod_ ok evs →
  announced prev evs.
Proof.
  intros Hv.
  destruct 1 as [|inputs|l inputs saved Hm Hn Hsaved|l inputs prog Hm Hn];
    unfold printed; rewrite ?Hv; cbn.
  - exact I.
  - repeat split.
  - rewrite lookup_insert_eq. repeat split; [exact Hm|].
    destruct Hsaved as [->|(_ & prog & ->)]; cbn; repeat split.
  - rewrite lookup_insert_eq. repeat split; [exact Hm|].
    destruct (py_truthy (kwargs_get "save_mxr" _ _)); cbn; repeat split.
Qed.

Lemma loop_events_announced kwargs verbose (children : list (string * Child)) ok
    (evs : list Event) :
  py_truthy verbose = true →
  loop_events kwargs verbose children ok evs →
  ∀ prev, announced prev evs.
Proof.
  intros Hv. induction 1 as [|name mod_ rest evs Hc|name mod_ rest ok evs evs' Hc _ IH];
    intros prev.
  - exact I.
  - eapply child_events_announced; eassumption.
  - apply announced_app; [|exact IH]. eapply child_events_announced; eassumption.
Qed.

Lemma loop_events_printed kwargs verbose (children : list (string * Child))
    (evs : list Event) :
  py_truthy verbose = true →
  loop_events kwargs verbose children true evs →
  printed_names evs = children.*1.
Proof.
  intros Hv H. remember true as ok eqn:Hok in H.
  induction H as [|name mod_ rest evs Hc|name mod_ rest ok evs evs' Hc _ IH].
  - reflexivity.
  - discriminate.
  - unfold printed_names in *. rewrite omap_app, (IH Hok).
    inversion Hc as [| | |l inputs prog Hm Hn Hevs]; subst.
    unfold printed. rewrite Hv. cbn.
    destruct (py_truthy (kwargs_get "save_mxr" _ _)); reflexivity.
Qed.

Lemma saved_files_app (evs evs' : list Event) :
  saved_files (evs ++ evs') = saved_files evs ++ saved_files evs'.
Proof. apply omap_app. Qed.

Lemma saved_files_printed verbose name (mod_ : Child) (inputs : list Tensor) :
  saved_files (printed verbose name mod_ inputs) = [].
Proof. unfold printed. destruct (py_truthy verbose); reflexivity. Qed.

Lemma loop_events_saved kwargs verbose (children : list (string * Child))
    (evs : list Event) :
  loop_events kwargs verbose children true evs →
  saved_files evs =
  if py_truthy (kwargs_get "save_mxr" (PyBool false) kwargs)
  then (fun name => name +:+ ".mxr") <$> children.*1 else [].
Proof.
  intros H. remember true as ok eqn:Hok.
  induction H as [|name mod_ rest evs Hc|name mod_ rest ok evs evs' Hc _ IH].
  - destruct (py_truthy _); reflexivity.
  - discriminate.
  - rewrite saved_files_app, (IH Hok).
    inversion Hc as [| | |l inputs prog Hm Hn Hevs]; subst.
    rewrite !saved_files_app, saved_files_printed.
    destruct (py_truthy (kwargs_get "save_mxr" _ _)); reflexivity.
Qed.

(** ** [lower_aten_to_mgx] *)

(** The events of a whole-graph lowering: the graph info of the traced model
    when [verbose] is true, the call of the pass manager, then the loop. *)
Lemma lower_aten_to_mgx_run gm example_inputs kwargs w :
  let verbose := kwargs_get "verbose" (PyBool false) kwargs in
  let normalized := normalize gm example_inputs kwargs w in
  let res := lower_aten_to_mgx gm example_inputs kwargs w in
  ∃ evs,
    events_since w res.1 =
      printed verbose "Traced Model" (Subgraph gm) example_inputs ++
      [EvRunAtenPasses gm example_inputs verbose] ++ evs ∧
    match normalized.2 with
    | inl e => evs = [] ∧ res = (normalized.1, inl e)
    | inr optim_gm =>
        loop_events kwargs verbose (named_children (heap normalized.1 optim_gm))
          (succeeded res.2) evs ∧
        res.1 = (lower_children optim_gm example_inputs kwargs verbose
                   (named_children (heap normalized.1 optim_gm)) normalized.1).1 ∧
        (succeeded res.2 = true → res.2 = inr optim_gm)
    end.
Proof.
  cbv zeta. rewrite lower_aten_to_mgx_unfold.
  destruct (normalize_spec gm example_inputs kwargs w) as (Ht & _ & _).
  destruct (normalize gm example_inputs kwargs w) as [w1 [e|optim_gm]]; cbn [fst snd] in *.
  - exists []. split; [|split; reflexivity].
    apply events_since_app. rewrite Ht, app_nil_r. reflexivity.
  - destruct (lower_children_events optim_gm example_inputs kwargs
                (kwargs_get "verbose" (PyBool false) kwargs)
                (named_children (heap w1 optim_gm)) w1) as (evs & Ht' & Hl).
    exists evs.
    destruct (lower_children _ _ _ _ _ w1) as [w2 [e|[]]]; cbn [fst snd succeeded] in *.
    + split; [|split; [exact Hl|split; [reflexivity|discriminate]]].
      apply events_since_app. rewrite Ht', Ht, <- !app_assoc. reflexivity.
    + split; [|split; [exact Hl|split; reflexivity]].
      apply events_since_app. rewrite Ht', Ht, <- !app_assoc. reflexivity.
Qed.

Lemma normalize_passes gm example_inputs kwargs w h optim_gm :
  run_aten_passes (heap w) gm example_inputs (kwargs_get "verbose" (PyBool false) kwargs)
    = (h, inr optim_gm) →
  heap (normalize gm example_inputs kwargs w).1 = h ∧
  (normalize gm example_inputs kwargs w).2 = inr optim_gm.
Proof.
  intros Hr. destruct (normalize_spec gm example_inputs kwargs w) as (_ & Hh & Ho).
  rewrite Hh, Ho, Hr. split; reflexivity.
Qed.

(** A failing iteration leaves the slots of the root as they were. *)
Lemma lower_child_raises_modules optim_gm example_inputs kwargs verbose name mod_ w e :
  (lower_child optim_gm example_inputs kwargs verbose (name, mod_) w).2 = inl e →
  modules (heap (lower_child optim_gm example_inputs kwargs verbose (name, mod_) w).1 optim_gm)
  = modules (heap w optim_gm).
Proof.
  intros He.
  destruct (lower_child_spec optim_gm example_inputs kwargs verbose name mod_ w) as (_ & _ & H).
  rewrite He in H. exact H.
Qed.

(** The iteration of a child raises what [lower_subgraph] raises on it. *)
Lemma lower_child_propagates optim_gm example_inputs kwargs verbose name l w inputs e :
  get_partition_inputs (heap w) optim_gm (Subgraph l) example_inputs = inr inputs →
  kwargs !! "name" = None →
  (lower_subgraph l inputs (<["name" := PyStr name]> kwargs)
     {| heap := heap w;
        trace := (trace w ++ printed verbose name (Subgraph l) inputs) ++
                 [EvLowerSubgraph l inputs (<["name" := PyStr name]> kwargs)] |}).2 = inl e →
  (lower_child optim_gm example_inputs kwargs verbose (name, Subgraph l) w).2 = inl e.
Proof.
  intros Hi Hn. unfold lower_child, bind, call. rewrite Hi.
  assert (when (py_truthy verbose) (print_graph_info name (Subgraph l) inputs) w =
          ({| heap := heap w; trace := trace w ++ printed verbose name (Subgraph l) inputs |},
           inr tt)) as ->.
  { unfold when, print_graph_info, emit, ret, printed.
    destruct (py_truthy verbose); [reflexivity|]. rewrite app_nil_r. destruct w; reflexivity. }
  unfold call_lower_subgraph, bind, bind_keywords. rewrite Hn. unfold ret, emit.
  cbn [heap trace].
  destruct (lower_subgraph _ _ _ _) as [w3 [e'|m]]; cbn; congruence.
Qed.

(** ** The claims *)

(** C1: when the pass manager gives a root whose [N] slots are a tree of
    uniquely named children, a whole-graph lowering that returns gives back that
    root, with the same [N] names in the same order, and every slot holds a
    compiled wrapper: none holds a subgraph any more. *)
Theorem lower_aten_to_mgx_substitutes_all gm example_inputs kwargs w h optim_gm r :
  run_aten_passes (heap w) gm example_inputs (kwargs_get "verbose" (PyBool false) kwargs)
    = (h, inr optim_gm) →
  tree_shaped (modules (h optim_gm)) →
  (lower_aten_to_mgx gm example_inputs kwargs w).2 = inr r →
  let final := (lower_aten_to_mgx gm example_inputs kwargs w).1 in
  r = optim_gm ∧
  length (modules (heap final r)) = length (modules (h optim_gm)) ∧
  (modules (heap final r)).*1 = (modules (h optim_gm)).*1 ∧
  Forall (fun nc => is_compiled nc.2 = true) (modules (heap final r)).
Proof.
  intros Hr Htree Hok. cbv zeta.
  destruct (normalize_passes _ _ _ _ _ _ Hr) as (Hh & Hn).
  destruct (lower_aten_to_mgx_run gm example_inputs kwargs w) as (evs & _ & H).
  rewrite Hn in H. destruct H as (_ & Hw & Hres).
  rewrite Hok in Hres. specialize (Hres eq_refl). injection Hres as ->.
  split; [reflexivity|]. rewrite Hw.
  assert (succeeded (lower_children optim_gm example_inputs kwargs
            (kwargs_get "verbose" (PyBool false) kwargs)
            (named_children (heap (normalize gm example_inputs kwargs w).1 optim_gm))
            (normalize gm example_inputs kwargs w).1).2 = true) as Hloop.
  { revert Hok. rewrite lower_aten_to_mgx_unfold.
    destruct (normalize gm example_inputs kwargs w) as [w1 [e|o]]; cbn [fst snd] in *;
      [discriminate|]. injection Hn as ->.
    destruct (lower_children _ _ _ _ _ w1) as [w2 [e|[]]]; [discriminate|reflexivity]. }
  revert Hw Hloop. rewrite Hh, (named_children_tree _ Htree). intros Hw Hloop.
  destruct (lower_children_modules optim_gm example_inputs kwargs
              (kwargs_get "verbose" (PyBool false) kwargs) (modules (h optim_gm))
              [] [] (normalize gm example_inputs kwargs w).1) as (cs' & Hm & Hnames & Hc).
  - rewrite Hh, app_nil_r. reflexivity.
  - rewrite app_nil_r. apply Htree.
  - exact Hloop.
  - rewrite app_nil_r in Hm. cbn [app] in Hm. rewrite Hm.
    split; [|split; [exact Hnames|exact Hc]].
    rewrite <- (length_fmap fst cs'), Hnames, length_fmap. reflexivity.
Qed.


(** C3: when the children before child [k] have been lowered and the iteration
    of child [k] raises (its [lower_subgraph] raised, or a step before it),
    [lower_aten_to_mgx] raises that exception in the world that iteration left:
    the slots before [k] hold compiled wrappers, slot [k] and the slots after it
    hold what they held. *)
Theorem lower_aten_to_mgx_no_rollback
    gm example_inputs kwargs w optim_gm pre name mod_ post e :
  let verbose := kwargs_get "verbose" (PyBool false) kwargs in
  let w1 := (normalize gm example_inputs kwargs w).1 in
  let w2 := (lower_children optim_gm example_inputs kwargs verbose pre w1).1 in
  let w3 := (lower_child optim_gm example_inputs kwargs verbose (name, mod_) w2).1 in
  (normalize gm example_inputs kwargs w).2 = inr optim_gm →
  tree_shaped (modules (heap w1 optim_gm)) →
  modules (heap w1 optim_gm) = pre ++ (name, mod_) :: post →
  (lower_children optim_gm example_inputs kwargs verbose pre w1).2 = inr tt →
  (lower_child optim_gm example_inputs kwargs verbose (name, mod_) w2).2 = inl e →
  lower_aten_to_mgx gm example_inputs kwargs w = (w3, inl e) ∧
  ∃ pre', modules (heap w3 optim_gm) = pre' ++ (name, mod_) :: post ∧
          pre'.*1 = pre.*1 ∧
          Forall (fun nc => is_compiled nc.2 = true) pre'.
Proof.
  cbv zeta. intros Hn Htree Hm Hpre Hk. split.
  - rewrite lower_aten_to_mgx_unfold.
    destruct (normalize gm example_inputs kwargs w) as [w1 r]; cbn [fst snd] in *. subst r.
    rewrite (named_children_tree _ Htree), Hm, lower_children_app. unfold bind.
    destruct (lower_children _ _ _ _ pre w1) as [w2 r]; cbn [fst snd] in *. subst r.
    cbn [lower_children]. unfold bind.
    destruct (lower_child _ _ _ _ _ w2) as [w3 r]; cbn [fst snd] in *. subst r.
    reflexivity.
  - rewrite (lower_child_raises_modules _ _ _ _ _ _ _ _ Hk).
    destruct (lower_children_modules optim_gm example_inputs kwargs
                (kwargs_get "verbose" (PyBool false) kwargs) pre
                [] ((name, mod_) :: post) (normalize gm example_inputs kwargs w).1)
      as (pre' & Hm' & Hnames & Hc).
    + exact Hm.
    + cbn [app]. rewrite <- Hm. apply Htree.
    + rewrite Hpre. reflexivity.
    + exists pre'. split; [exact Hm'|split; assumption].
Qed.

(** C4: when [save_mxr] is set (supplied and true), a call of [lower_subgraph]
    whose [ShapeProp], interpreter construction and interpreter run did not
    raise hands the program of the interpreter that ran to [migraphx.save], and
    when that does not raise the file is written, whether or not a later
    statement of the call raises: the file is [<name>.mxr] when a [name] option
    is supplied and [prog.mxr] when none is; nothing else is written, and a call
    that returns has written the program of the wrapper it returns.  When
    [save_mxr] is unset, absent or false, no call writes a file, whatever its
    outcome. *)
Theorem lower_subgraph_writes_artifact module inputs kwargs w :
  let res := lower_subgraph module inputs kwargs w in
  let save_mxr := kwargs_get "save_mxr" (PyBool false) kwargs in
  let file := match kwargs !! "name" with
              | Some name => py_str name +:+ ".mxr"
              | None => "prog.mxr"
              end in
  (py_truthy save_mxr = true →
   ∀ g it it',
     ShapeProp_propagate (heap w) module inputs = (g, None) →
     MGXInterpreter (heap (shape_prop module inputs w).1) module inputs
       (kwargs_get "verbose" (PyBool false) kwargs) = inr it →
     Interp_run it = inr it' →
     migraphx_save (Interp_program it') file = None →
     trace res.1 = trace w ++ [EvSave (Interp_program it') file]) ∧
  (py_truthy save_mxr = true →
   ∀ m, res.2 = inr m → trace res.1 = trace w ++ [EvSave (program m) file]) ∧
  (py_truthy save_mxr = false → trace res.1 = trace w).
Proof.
  cbv zeta. fold (mxr_name kwargs). split; [|split].
  - intros Hs g it it' Hp Hi Hr Hw.
    rewrite (lower_subgraph_after_run _ _ _ _ _ _ _ Hp Hi Hr). cbv zeta. rewrite Hs, Hw.
    destruct (Interp_get_input_names_raises it'); [|destruct (MGXModule_raises _ _ _)];
      cbn [fst]; rewrite after_save_trace, Hs; reflexivity.
  - intros Hs m Hm.
    destruct (lower_subgraph_events module inputs kwargs w) as (saved & Hev & _ & Hret).
    rewrite Hev, (Hret m Hm), Hs. reflexivity.
  - intros Hs.
    destruct (lower_subgraph_events module inputs kwargs w) as (saved & Hev & Hsaved & _).
    rewrite Hev. destruct Hsaved as [->|[Hs' _]]; [apply app_nil_r|congruence].
Qed.

(** C5: when [ShapeProp] raises, [lower_subgraph] raises that same exception;
    it returns no wrapper and writes no file. *)
Theorem lower_subgraph_shape_failure module inputs kwargs w g e :
  ShapeProp_propagate (heap w) module inputs = (g, Some e) →
  (lower_subgraph module inputs kwargs w).2 = inl (Raised e) ∧
  trace (lower_subgraph module inputs kwargs w).1 = trace w.
Proof.
  intros Hp. rewrite (lower_subgraph_propagate_raises _ _ _ _ _ _ Hp). cbn [fst snd].
  rewrite shape_prop_world. split; reflexivity.
Qed.

(** C6: the wrapper a successful call returns is built from the program of the
    interpreter that ran, the input names that interpreter recorded, and the
    value of [fp16] (false when absent); it is marked for reduced precision
    exactly when an [fp16] option is supplied and true. *)
Theorem lower_subgraph_wrapper module inputs kwargs w m :
  (lower_subgraph module inputs kwargs w).2 = inr m →
  (∃ it it',
     MGXInterpreter (heap (shape_prop module inputs w).1) module inputs
       (kwargs_get "verbose" (PyBool false) kwargs) = inr it ∧
     Interp_run it = inr it' ∧
     m = {| program := Interp_program it';
            input_names := Interp_get_input_names it';
            quantize_fp16 := kwargs_get "fp16" (PyBool false) kwargs |}) ∧
  (reduced_precision m = true ↔ ∃ v, kwargs !! "fp16" = Some v ∧ py_truthy v = true).
Proof.
  intros Hm.
  assert (∃ it it',
     MGXInterpreter (heap (shape_prop module inputs w).1) module inputs
       (kwargs_get "verbose" (PyBool false) kwargs) = inr it ∧
     Interp_run it = inr it' ∧
     m = {| program := Interp_program it';
            input_names := Interp_get_input_names it';
            quantize_fp16 := kwargs_get "fp16" (PyBool false) kwargs |}) as Hex.
  { destruct (lower_subgraph_lowered module inputs kwargs w)
      as [g e Hp|g e Hp Hi|g it e Hp Hi Hr|g it it' e Hp Hi Hr Hs Hw
         |g it it' e Hp Hi Hr Hw Hg|g it it' e Hp Hi Hr Hw Hg Hc
         |g it it' Hp Hi Hr Hw Hg Hc];
      try discriminate Hm; injection Hm as <-; eauto. }
  split; [exact Hex|].
  destruct Hex as (it & it' & _ & _ & ->). unfold reduced_precision. cbn.
  apply kwargs_get_truthy.
Qed.

(** C7, as the code has it: a whole-graph lowering prints graph info exactly
    when the [verbose] option is supplied and true.  Then the first thing it does
    is print the traced model, before it calls the pass manager; every call of
    [lower_subgraph] comes right after the graph info of that child; and a
    lowering that returns has printed the traced model and every child of the
    root, in order.  [lower_subgraph] itself never prints graph info, whatever
    [verbose] is. *)
Theorem lower_aten_to_mgx_prints_when_verbose gm example_inputs kwargs w :
  let verbose := kwargs_get "verbose" (PyBool false) kwargs in
  let res := lower_aten_to_mgx gm example_inputs kwargs w in
  let evs := events_since w res.1 in
  (if py_truthy verbose
   then (∃ rest, evs = EvPrintGraphInfo "Traced Model" (Subgraph gm) example_inputs ::
                       EvRunAtenPasses gm example_inputs verbose :: rest) ∧
        announced None evs ∧
        match res.2 with
        | inr optim_gm =>
            printed_names evs =
            "Traced Model" ::
            (named_children
               (heap (normalize gm example_inputs kwargs w).1 optim_gm)).*1
        | inl _ => True
        end
   else Forall (fun ev => is_print ev = false) evs) ∧
  (∀ module inputs kw w',
     Forall (fun ev => is_print ev = false)
       (events_since w' (lower_subgraph module inputs kw w').1)).
Proof.
  cbv zeta. split.
  - destruct (lower_aten_to_mgx_run gm example_inputs kwargs w) as (evs & Hev & H).
    rewrite Hev. unfold printed.
    destruct (py_truthy (kwargs_get "verbose" (PyBool false) kwargs)) eqn:Hv.
    + split; [eexists; reflexivity|]. split.
      * cbn. split; [exact I|]. split; [exact I|].
        destruct (normalize gm example_inputs kwargs w).2 as [e|optim_gm].
        -- destruct H as [-> _]. exact I.
        -- destruct H as (Hl & _). eapply loop_events_announced; eassumption.
      * destruct (lower_aten_to_mgx gm example_inputs kwargs w).2 as [e|r] eqn:Hres;
          [exact I|].
        destruct (normalize gm example_inputs kwargs w).2 as [e|optim_gm].
        -- destruct H as [_ Heq]. rewrite Heq in Hres. discriminate Hres.
        -- destruct H as (Hl & _ & Hr). specialize (Hr eq_refl). injection Hr as ->.
           cbn. f_equal. eapply loop_events_printed; eassumption.
    + cbn. constructor; [reflexivity|].
      destruct (normalize gm example_inputs kwargs w).2 as [e|optim_gm].
      * destruct H as [-> _]. constructor.
      * destruct H as (Hl & _). apply loop_events_each in Hl.
        eapply Forall_impl; [exact Hl|].
        intros [n c i|? ? ?|? ? ?|? ?] (name & mod_ & _ & Hc); cbn in *;
          [destruct Hc as (Hv' & _); congruence|reflexivity..].
  - intros module inputs kw w'.
    destruct (lower_subgraph_events module inputs kw w') as (saved & Hev & Hsaved & _).
    rewrite (events_since_app _ _ _ Hev).
    destruct Hsaved as [->|(_ & prog & ->)]; repeat constructor.
Qed.

(** C8: in a whole-graph lowering every call of [lower_subgraph] receives the
    attribute name of its child as the [name] option, so the file it would write
    is [<child name>.mxr] and the test for a missing [name] never holds; every
    file written is [<child name>.mxr] for a child of the root, and a lowering
    that returns with [save_mxr] set has written one such file per child, in
    order. *)
Theorem lower_aten_to_mgx_names_artifacts gm example_inputs kwargs w h optim_gm :
  run_aten_passes (heap w) gm example_inputs (kwargs_get "verbose" (PyBool false) kwargs)
    = (h, inr optim_gm) →
  let children := named_children (h optim_gm) in
  let res := lower_aten_to_mgx gm example_inputs kwargs w in
  let evs := events_since w res.1 in
  (∀ module inputs kw,
     EvLowerSubgraph module inputs kw ∈ evs →
     ∃ name, (name, Subgraph module) ∈ children ∧
             kw !! "name" = Some (PyStr name) ∧
             mxr_name kw = name +:+ ".mxr") ∧
  (∀ file, file ∈ saved_files evs →
     ∃ name, name ∈ children.*1 ∧ file = name +:+ ".mxr") ∧
  (succeeded res.2 = true →
   saved_files evs =
   if py_truthy (kwargs_get "save_mxr" (PyBool false) kwargs)
   then (fun name => name +:+ ".mxr") <$> children.*1 else []).
Proof.
  intros Hr. cbv zeta.
  destruct (normalize_passes _ _ _ _ _ _ Hr) as (Hh & Hn).
  destruct (lower_aten_to_mgx_run gm example_inputs kwargs w) as (evs & Hev & H).
  rewrite Hn, Hh in H. destruct H as (Hl & _ & _).
  assert (∀ ev, ev ∈ events_since w (lower_aten_to_mgx gm example_inputs kwargs w).1 →
                is_print ev = false → (∀ a b c, ev ≠ EvRunAtenPasses a b c) → ev ∈ evs) as Hsub.
  { intros ev. rewrite Hev. unfold printed.
    destruct (py_truthy _); cbn; rewrite ?elem_of_cons; intros Hin Hp Hne.
    - destruct Hin as [->|[->|Hin]]; [discriminate|exfalso; eapply Hne; reflexivity|exact Hin].
    - destruct Hin as [->|Hin]; [exfalso; eapply Hne; reflexivity|exact Hin]. }
  pose proof (loop_events_each _ _ _ _ _ Hl) as Hall. rewrite Forall_forall in Hall.
  split; [|split].
  - intros module inputs kw Hin.
    apply Hsub in Hin; [|reflexivity|discriminate].
    destruct (Hall _ Hin) as (name & mod_ & Hc & -> & _ & ->).
    exists name. split; [exact Hc|]. rewrite lookup_insert_eq, mxr_name_bound.
    split; reflexivity.
  - intros file Hin. unfold saved_files in Hin. apply list_elem_of_omap in Hin.
    destruct Hin as ([| | |prog file'] & Hin & Hf); try discriminate. injection Hf as ->.
    apply Hsub in Hin; [|reflexivity|discriminate].
    destruct (Hall _ Hin) as (name & mod_ & Hc & -> & _).
    exists name. split; [|reflexivity].
    apply list_elem_of_fmap. exists (name, mod_). split; [reflexivity|exact Hc].
  - intros Hok. rewrite Hok in Hl. rewrite Hev, !saved_files_app, saved_files_printed.
    cbn. apply loop_events_saved in Hl. exact Hl.
Qed.

(** C9: two calls of [lower_subgraph] whose options agree on [verbose], [fp16]
    and [save_mxr], with [save_mxr] unset or absent, leave the same world and
    give the same result, whatever [name] and the other options are; they write
    no file. *)
Theorem lower_subgraph_ignores_name module inputs kw1 kw2 w :
  kw1 !! "verbose" = kw2 !! "verbose" →
  kw1 !! "fp16" = kw2 !! "fp16" →
  kw1 !! "save_mxr" = kw2 !! "save_mxr" →
  py_truthy (kwargs_get "save_mxr" (PyBool false) kw1) = false →
  lower_subgraph module inputs kw1 w = lower_subgraph module inputs kw2 w ∧
  trace (lower_subgraph module inputs kw1 w).1 = trace w.
Proof.
  intros Hv Hf Hs Hoff. split.
  - unfold lower_subgraph, kwargs_get in *. rewrite <- Hv, <- Hf, <- Hs.
    unfold bind. destruct (shape_prop module inputs w) as [w1 [e|[]]]; [reflexivity|].
    destruct (call _ w1) as [w2 [e|it]]; [reflexivity|].
    destruct (call _ w2) as [w3 [e|it']]; [reflexivity|].
    rewrite Hoff. reflexivity.
  - destruct (lower_subgraph_events module inputs kw1 w) as (saved & Hev & Hsaved & _).
    rewrite Hev. destruct Hsaved as [->|[Hon _]]; [apply app_nil_r|congruence].
Qed.

(** C10: when the interpreter's run raises, [lower_subgraph] raises that same
    exception, returns no wrapper and writes no file, and the subgraph keeps the
    graph [ShapeProp] left: if that differs from the graph before the call, the
    object is not what it was. *)
Theorem lower_subgraph_run_failure module inputs kwargs w g it e :
  ShapeProp_propagate (heap w) module inputs = (g, None) →
  MGXInterpreter (heap (shape_prop module inputs w).1) module inputs
    (kwargs_get "verbose" (PyBool false) kwargs) = inr it →
  Interp_run it = inl e →
  let res := lower_subgraph module inputs kwargs w in
  res.2 = inl (Raised e) ∧
  trace res.1 = trace w ∧
  graph (heap res.1 module) = g ∧
  (g ≠ graph (heap w module) → heap res.1 module ≠ heap w module).
Proof.
  intros Hp Hi Hr. cbv zeta.
  rewrite (lower_subgraph_run_raises _ _ _ _ _ _ _ Hp Hi Hr). cbn [fst snd].
  rewrite shape_prop_world. cbn [heap trace]. rewrite heap_insert_eq, Hp. cbn.
  repeat split. intros Hne Heq. apply Hne. rewrite <- Heq. reflexivity.
Qed.

(** ** More on [lower_subgraph] *)

Lemma lower_subgraph_heap module inputs kwargs w :
  heap (lower_subgraph module inputs kwargs w).1 = heap (shape_prop module inputs w).1.
Proof.
  destruct (lower_subgraph_lowered module inputs kwargs w); cbn [fst];
    rewrite ?after_save_heap; reflexivity.
Qed.

Lemma lower_subgraph_fp16 module inputs kwargs w m :
  (lower_subgraph module inputs kwargs w).2 = inr m →
  quantize_fp16 m = kwargs_get "fp16" (PyBool false) kwargs.
Proof.
  destruct (lower_subgraph_lowered module inputs kwargs w); intros [= <-]; reflexivity.
Qed.

(** X3: when the construction of the interpreter raises, [lower_subgraph]
    raises that exception; nothing is written, and the subgraph keeps the graph
    [ShapeProp] left. *)
Theorem lower_subgraph_interpreter_failure module inputs kwargs w g e :
  ShapeProp_propagate (heap w) module inputs = (g, None) →
  MGXInterpreter (heap (shape_prop module inputs w).1) module inputs
    (kwargs_get "verbose" (PyBool false) kwargs) = inl e →
  let res := lower_subgraph module inputs kwargs w in
  res.2 = inl (Raised e) ∧
  trace res.1 = trace w ∧
  graph (heap res.1 module) = g.
Proof.
  intros Hp Hi. cbv zeta.
  rewrite (lower_subgraph_interpreter_raises _ _ _ _ _ _ Hp Hi). cbn [fst snd].
  rewrite shape_prop_world. cbn [heap trace]. rewrite heap_insert_eq, Hp.
  repeat split.
Qed.

(** X4: when [save_mxr] is set and [migraphx.save] raises, [lower_subgraph]
    raises that exception: no wrapper is returned, no file is recorded as
    written, and the subgraph keeps the graph [ShapeProp] left. *)
Theorem lower_subgraph_save_failure module inputs kwargs w g it it' e :
  ShapeProp_propagate (heap w) module inputs = (g, None) →
  MGXInterpreter (heap (shape_prop module inputs w).1) module inputs
    (kwargs_get "verbose" (PyBool false) kwargs) = inr it →
  Interp_run it = inr it' →
  py_truthy (kwargs_get "save_mxr" (PyBool false) kwargs) = true →
  migraphx_save (Interp_program it') (mxr_name kwargs) = Some e →
  let res := lower_subgraph module inputs kwargs w in
  res.2 = inl (Raised e) ∧
  trace res.1 = trace w ∧
  graph (heap res.1 module) = g.
Proof.
  intros Hp Hi Hr Hs Hw. cbv zeta.
  assert (lower_subgraph module inputs kwargs w
          = ((shape_prop module inputs w).1, inl (Raised e))) as ->.
  { revert Hi. unfold lower_subgraph, bind, shape_prop, call, when, save, raise.
    rewrite Hp. cbn. intros ->. rewrite Hr, Hs, Hw. reflexivity. }
  cbn [fst snd]. rewrite shape_prop_world. cbn [heap trace]. rewrite heap_insert_eq, Hp.
  repeat split.
Qed.

(** X13: when the statements of [lower_subgraph] up to [migraphx.save] have
    not raised and the wrapper cannot be built, because the interpreter's
    [get_input_names] raises or the constructor of [MGXModule] does,
    [lower_subgraph] raises that exception and returns no wrapper; the file
    written under [save_mxr] stays written, and the subgraph keeps the graph
    [ShapeProp] left. *)
Theorem lower_subgraph_wrapper_failure module inputs kwargs w g it it' e :
  ShapeProp_propagate (heap w) module inputs = (g, None) →
  MGXInterpreter (heap (shape_prop module inputs w).1) module inputs
    (kwargs_get "verbose" (PyBool false) kwargs) = inr it →
  Interp_run it = inr it' →
  (py_truthy (kwargs_get "save_mxr" (PyBool false) kwargs) = true →
   migraphx_save (Interp_program it') (mxr_name kwargs) = None) →
  Interp_get_input_names_raises it' = Some e ∨
  Interp_get_input_names_raises it' = None ∧
  MGXModule_raises (Interp_program it') (Interp_get_input_names it')
    (kwargs_get "fp16" (PyBool false) kwargs) = Some e →
  let res := lower_subgraph module inputs kwargs w in
  res.2 = inl (Raised e) ∧
  trace res.1 =
    trace w ++ (if py_truthy (kwargs_get "save_mxr" (PyBool false) kwargs)
                then [EvSave (Interp_program it') (mxr_name kwargs)] else []) ∧
  graph (heap res.1 module) = g.
Proof.
  intros Hp Hi Hr Hw Hraise. cbv zeta.
  assert (lower_subgraph module inputs kwargs w
          = (after_save module inputs kwargs w it', inl (Raised e))) as ->.
  { rewrite (lower_subgraph_after_run _ _ _ _ _ _ _ Hp Hi Hr). cbv zeta.
    assert ((if py_truthy (kwargs_get "save_mxr" (PyBool false) kwargs)
             then match migraphx_save (Interp_program it') (mxr_name kwargs) with
                  | Some e' => ((shape_prop module inputs w).1, inl (Raised e'))
                  | None => (after_save module inputs kwargs w it', inl (Raised e))
                  end
             else (after_save module inputs kwargs w it', inl (Raised e)))
            = (after_save module inputs kwargs w it',
               inl (Raised e) : Exn + MGXModule)) as Hsave.
    { destruct (py_truthy _); [rewrite (Hw eq_refl)|]; reflexivity. }
    destruct Hraise as [Hg|[Hg Hc]]; rewrite Hg; [|rewrite Hc]; exact Hsave. }
  cbn [fst snd]. rewrite after_save_trace, after_save_heap, shape_prop_world. cbn [heap].
  rewrite heap_insert_eq, Hp. repeat split.
Qed.

(** ** More on [lower_aten_to_mgx] *)

(** One iteration of the loop, path by path. *)
Lemma lower_child_unfold optim_gm example_inputs kwargs verbose name mod_ w :
  lower_child optim_gm example_inputs kwargs verbose (name, mod_) w =
  match get_partition_inputs (heap w) optim_gm mod_ example_inputs with
  | inl e => (w, inl (Raised e))
  | inr inputs =>
      let w1 := {| heap := heap w; trace := trace w ++ printed verbose name mod_ inputs |} in
      match kwargs !! "name" with
      | Some _ =>
          (w1, inl (TypeError
                      "lower_subgraph() got multiple values for keyword argument 'name'"))
      | None =>
          match mod_ with
          | Compiled _ =>
              (w1, inl (AttributeError "'MGXModule' object has no attribute 'graph'"))
          | Subgraph l =>
              let kw := <["name" := PyStr name]> kwargs in
              let res :=
                lower_subgraph l inputs kw
                  {| heap := heap w;
                     trace := (trace w ++ printed verbose name mod_ inputs) ++
                              [EvLowerSubgraph l inputs kw] |} in
              match res.2 with
              | inl e => (res.1, inl e)
              | inr m => ((setattr (E:=E) optim_gm name m res.1).1, inr tt)
              end
          end
      end
  end.
Proof.
  unfold lower_child, bind, call.
  destruct (get_partition_inputs (heap w) optim_gm mod_ example_inputs) as [e|pin];
    [reflexivity|].
  assert (when (py_truthy verbose) (print_graph_info name mod_ pin) w =
          ({| heap := heap w; trace := trace w ++ printed verbose name mod_ pin |}, inr tt))
    as ->.
  { unfold when, print_graph_info, emit, ret, printed.
    destruct (py_truthy verbose); [reflexivity|]. rewrite app_nil_r. destruct w; reflexivity. }
  unfold call_lower_subgraph, bind, bind_keywords.
  destruct (kwargs !! "name") as [v|]; [reflexivity|].
  unfold ret. destruct mod_ as [l|m0]; [|reflexivity].
  unfold emit. cbn [heap trace]. cbv zeta.
  destruct (lower_subgraph _ _ _ _) as [w3 [e|m]]; reflexivity.
Qed.

(** An iteration leaves alone every object but the root and the child it
    lowers; of the root it changes the slots only. *)
Lemma lower_child_frame optim_gm example_inputs kwargs verbose name mod_ w o :
  mod_ ≠ Subgraph o →
  let res := lower_child optim_gm example_inputs kwargs verbose (name, mod_) w in
  graph (heap res.1 o) = graph (heap w o) ∧
  (o ≠ optim_gm → heap res.1 o = heap w o).
Proof.
  intros Hmod. cbv zeta. rewrite lower_child_unfold.
  destruct (get_partition_inputs _ _ _ _) as [e|pin]; [split; reflexivity|].
  cbv zeta. destruct (kwargs !! "name") as [v|]; [split; reflexivity|].
  destruct mod_ as [l|m0]; [|split; reflexivity].
  assert (l ≠ o) as Hl by congruence.
  set (w2 := {| heap := heap w; trace := _ |}).
  pose proof (lower_subgraph_heap l pin (<["name" := PyStr name]> kwargs) w2) as Hh.
  rewrite shape_prop_world in Hh. cbn [heap] in Hh.
  destruct (lower_subgraph l pin _ w2) as [w3 [e|m]]; cbn [fst snd] in *.
  - rewrite Hh, heap_insert_ne by exact Hl. split; reflexivity.
  - unfold setattr. cbn [fst heap]. split.
    + destruct (decide (optim_gm = o)) as [->|Hne].
      * rewrite heap_insert_eq. cbn [graph]. rewrite Hh, heap_insert_ne by exact Hl.
        reflexivity.
      * rewrite heap_insert_ne by exact Hne. rewrite Hh, heap_insert_ne by exact Hl.
        reflexivity.
    + intros Hne. rewrite heap_insert_ne by congruence.
      rewrite Hh, heap_insert_ne by exact Hl. reflexivity.
Qed.

Lemma child_locs_cons name (mod_ : Child) (rest : list (string * Child)) o :
  o ∉ child_locs ((name, mod_) :: rest) → mod_ ≠ Subgraph o ∧ o ∉ child_locs rest.
Proof.
  unfold child_locs. cbn. destruct mod_ as [l|m]; cbn.
  - intros Hn. split.
    + intros [= ->]. apply Hn. left.
    + intros Hin. apply Hn. right. exact Hin.
  - intros Hn. split; [discriminate|exact Hn].
Qed.

Lemma lower_children_frame optim_gm example_inputs kwargs verbose children w o :
  o ∉ child_locs children →
  let res := lower_children optim_gm example_inputs kwargs verbose children w in
  graph (heap res.1 o) = graph (heap w o) ∧
  (o ≠ optim_gm → heap res.1 o = heap w o).
Proof.
  cbv zeta. revert w. induction children as [|[name mod_] rest IH]; intros w Hn.
  - split; reflexivity.
  - apply child_locs_cons in Hn as [Hmod Hn]. cbn [lower_children]. unfold bind.
    destruct (lower_child_frame optim_gm example_inputs kwargs verbose name mod_ w o Hmod)
      as [Hg Hh].
    destruct (lower_child _ _ _ _ _ w) as [w1 [e|[]]]; cbn [fst] in *; [split; assumption|].
    destruct (IH w1 Hn) as [Hg' Hh']. split.
    + rewrite Hg'. exact Hg.
    + intros Hne. rewrite (Hh' Hne). exact (Hh Hne).
Qed.

(** An iteration that completes has put in the slot of its child a wrapper
    that carries the top-level [fp16] option. *)
Lemma lower_child_wrapper optim_gm example_inputs kwargs verbose name mod_ w :
  let res := lower_child optim_gm example_inputs kwargs verbose (name, mod_) w in
  succeeded res.2 = true →
  ∃ m, modules (heap res.1 optim_gm) =
         set_module (modules (heap w optim_gm)) name (Compiled m) ∧
       quantize_fp16 m = kwargs_get "fp16" (PyBool false) kwargs.
Proof.
  cbv zeta. rewrite lower_child_unfold.
  destruct (get_partition_inputs _ _ _ _) as [e|pin]; [discriminate|].
  cbv zeta. destruct (kwargs !! "name") as [v|]; [discriminate|].
  destruct mod_ as [l|m0]; [|discriminate].
  set (w2 := {| heap := heap w; trace := _ |}).
  pose proof (lower_subgraph_modules l pin (<["name" := PyStr name]> kwargs) w2 optim_gm)
    as Hm.
  pose proof (lower_subgraph_fp16 l pin (<["name" := PyStr name]> kwargs) w2) as Hf.
  destruct (lower_subgraph l pin _ w2) as [w3 [e|m]]; cbn [fst snd] in *; [discriminate|].
  intros _. exists m. unfold setattr. cbn [fst heap]. rewrite heap_insert_eq. cbn [modules].
  rewrite Hm. split; [reflexivity|].
  rewrite (Hf m eq_refl). unfold kwargs_get. rewrite lookup_insert_ne by discriminate.
  reflexivity.
Qed.

Lemma lower_children_wrappers optim_gm example_inputs kwargs verbose children :
  ∀ done rest w,
  modules (heap w optim_gm) = done ++ children ++ rest →
  NoDup (done ++ children ++ rest).*1 →
  let res := lower_children optim_gm example_inputs kwargs verbose children w in
  succeeded res.2 = true →
  ∃ children', modules (heap res.1 optim_gm) = done ++ children' ++ rest ∧
               Forall (fun nc => ∃ m, nc.2 = Compiled m ∧
                                      quantize_fp16 m =
                                      kwargs_get "fp16" (PyBool false) kwargs) children'.
Proof.
  cbv zeta. induction children as [|[name mod_] children IH]; intros done rest w Hm Hnd Hok.
  - exists []. split; [exact Hm|constructor].
  - cbn [lower_children] in *. unfold bind in *.
    pose proof (lower_child_wrapper optim_gm example_inputs kwargs verbose name mod_ w) as Hw.
    cbv zeta in Hw.
    destruct (lower_child _ _ _ _ _ w) as [w1 [e|[]]]; cbn [fst snd] in *; [discriminate|].
    destruct (Hw eq_refl) as (m & Hs & Hf).
    assert (name ∉ done.*1) as Hfresh.
    { rewrite fmap_app in Hnd. apply NoDup_app in Hnd as (_ & Hd & _).
      intros Hin. apply (Hd _ Hin). cbn. left. }
    rewrite Hm in Hs. cbn [app] in Hs. rewrite set_module_middle in Hs by exact Hfresh.
    destruct (IH (done ++ [(name, Compiled m)]) rest w1) as (cs' & Hm' & Hc').
    + rewrite Hs, <- app_assoc. reflexivity.
    + revert Hnd. rewrite <- app_assoc.
      repeat (rewrite fmap_app || rewrite fmap_cons). cbn. trivial.
    + exact Hok.
    + exists ((name, Compiled m) :: cs'). split.
      * rewrite Hm', <- app_assoc. reflexivity.
      * constructor; [exists m; split; [reflexivity|exact Hf]|exact Hc'].
Qed.

(** Whatever the outcome of the loop, the slots it has replaced are the first
    ones, and the others hold what they held. *)
Lemma lower_children_prefix optim_gm example_inputs kwargs verbose children :
  ∀ done rest w,
  modules (heap w optim_gm) = done ++ children ++ rest →
  NoDup (done ++ children ++ rest).*1 →
  let res := lower_children optim_gm example_inputs kwargs verbose children w in
  ∃ lowered lowered' kept,
    children = lowered ++ kept ∧
    modules (heap res.1 optim_gm) = done ++ lowered' ++ kept ++ rest ∧
    lowered'.*1 = lowered.*1 ∧
    Forall (fun nc => is_compiled nc.2 = true) lowered'.
Proof.
  cbv zeta. induction children as [|[name mod_] children IH]; intros done rest w Hm Hnd.
  - exists [], [], []. cbn. repeat split; [exact Hm|constructor].
  - cbn [lower_children]. unfold bind.
    destruct (lower_child_spec optim_gm example_inputs kwargs verbose name mod_ w)
      as (_ & _ & Hs).
    destruct (lower_child _ _ _ _ _ w) as [w1 [e|[]]]; cbn [fst snd] in *.
    + exists [], [], ((name, mod_) :: children). cbn.
      repeat split; [rewrite Hs; exact Hm|constructor].
    + destruct Hs as (m & Hs).
      assert (name ∉ done.*1) as Hfresh.
      { rewrite fmap_app in Hnd. apply NoDup_app in Hnd as (_ & Hd & _).
        intros Hin. apply (Hd _ Hin). cbn. left. }
      rewrite Hm in Hs. cbn [app] in Hs. rewrite set_module_middle in Hs by exact Hfresh.
      destruct (IH (done ++ [(name, Compiled m)]) rest w1)
        as (lo & lo' & kept & -> & Hm' & Hn' & Hc').
      * rewrite Hs, <- app_assoc. reflexivity.
      * revert Hnd. rewrite <- app_assoc.
        repeat (rewrite fmap_app || rewrite fmap_cons). cbn. trivial.
      * exists ((name, mod_) :: lo), ((name, Compiled m) :: lo'), kept.
        split; [reflexivity|]. split; [rewrite Hm', <- app_assoc; reflexivity|].
        split; [cbn; rewrite Hn'; reflexivity|].
        constructor; [reflexivity|exact Hc'].
Qed.





Lemma child_events_saved kwargs verbose name (mod_ : Child) ok (evs : list Event) :
  child_events kwargs verbose name mod_ ok evs →
  (saved_files evs = [] ∧ (ok = false ∨
     py_truthy (kwargs_get "save_mxr" (PyBool false) kwargs) = false)) ∨
  (saved_files evs = [name +:+ ".mxr"] ∧
   py_truthy (kwargs_get "save_mxr" (PyBool false) kwargs) = true).
Proof.
  destruct 1 as [|inputs|l inputs saved Hm Hn Hsaved|l inputs prog Hm Hn].
  - left. split; [reflexivity|left; reflexivity].
  - left. split; [apply saved_files_printed|left; reflexivity].
  - rewrite !saved_files_app, saved_files_printed.
    destruct Hsaved as [->|(Hon & prog & ->)]; cbn.
    + left. split; [reflexivity|left; reflexivity].
    + right. split; [reflexivity|exact Hon].
  - rewrite !saved_files_app, saved_files_printed.
    destruct (py_truthy (kwargs_get "save_mxr" _ _)); cbn.
    + right. split; reflexivity.
    + left. split; [reflexivity|right; reflexivity].
Qed.

Lemma loop_events_saved_prefix kwargs verbose (children : list (string * Child)) ok
    (evs : list Event) :
  loop_events kwargs verbose children ok evs →
  saved_files evs `prefix_of` (fun name => name +:+ ".mxr") <$> children.*1.
Proof.
  induction 1 as [|name mod_ rest evs Hc|name mod_ rest ok evs evs' Hc Hl IH].
  - apply prefix_nil.
  - destruct (child_events_saved _ _ _ _ _ _ Hc) as [[-> _]|[-> _]].
    + apply prefix_nil.
    + cbn. apply prefix_cons, prefix_nil.
  - rewrite saved_files_app.
    destruct (child_events_saved _ _ _ _ _ _ Hc) as [[-> [[=]|Hoff]]|[-> _]]; cbn.
    + assert (saved_files evs' = []) as ->; [|apply prefix_nil].
      clear IH Hc. induction Hl as [|n c r e Hc|n c r o e e' Hc _ IH].
      * reflexivity.
      * destruct (child_events_saved _ _ _ _ _ _ Hc) as [[-> _]|[_ Hon]];
          [reflexivity|congruence].
      * rewrite saved_files_app, IH.
        destruct (child_events_saved _ _ _ _ _ _ Hc) as [[-> _]|[_ Hon]];
          [reflexivity|congruence].
    + apply prefix_cons, IH.
Qed.

Lemma string_length_app (s t : string) :
  String.length (s +:+ t) = String.length s + String.length t.
Proof.
  induction s as [|a s IH]; [reflexivity|].
  change (S (String.length (s +:+ t)) = S (String.length s + String.length t)).
  rewrite IH. reflexivity.
Qed.

(** Two names with the same file name are the same name. *)
Lemma mxr_suffix_inj (s1 s2 : string) : s1 +:+ ".mxr" = s2 +:+ ".mxr" → s1 = s2.
Proof.
  revert s2. induction s1 as [|a s1 IH]; intros [|b s2] H.
  - reflexivity.
  - apply (f_equal String.length) in H. rewrite !string_length_app in H.
    change (String.length (String b s2)) with (S (String.length s2)) in H.
    change (String.length "") with 0 in H. lia.
  - apply (f_equal String.length) in H. rewrite !string_length_app in H.
    change (String.length (String a s1)) with (S (String.length s1)) in H.
    change (String.length "") with 0 in H. lia.
  - change (String a (s1 +:+ ".mxr") = String b (s2 +:+ ".mxr")) in H.
    injection H as -> H. rewrite (IH _ H). reflexivity.
Qed.

(** After the pass manager has given the root, what is left is the loop. *)
Lemma lower_aten_to_mgx_loop gm example_inputs kwargs w h optim_gm :
  run_aten_passes (heap w) gm example_inputs (kwargs_get "verbose" (PyBool false) kwargs)
    = (h, inr optim_gm) →
  let verbose := kwargs_get "verbose" (PyBool false) kwargs in
  let res := lower_aten_to_mgx gm example_inputs kwargs w in
  ∃ w1 evs,
    heap w1 = h ∧
    trace w1 = trace w ++ printed verbose "Traced Model" (Subgraph gm) example_inputs ++
               [EvRunAtenPasses gm example_inputs verbose] ∧
    lower_aten_to_mgx gm example_inputs kwargs w =
      match lower_children optim_gm example_inputs kwargs verbose
              (named_children (h optim_gm)) w1 with
      | (w2, inl e) => (w2, inl e)
      | (w2, inr _) => (w2, inr optim_gm)
      end ∧
    events_since w res.1 =
      printed verbose "Traced Model" (Subgraph gm) example_inputs ++
      [EvRunAtenPasses gm example_inputs verbose] ++ evs ∧
    loop_events kwargs verbose (named_children (h optim_gm)) (succeeded res.2) evs.
Proof.
  intros Hr. cbv zeta.
  destruct (normalize_passes _ _ _ _ _ _ Hr) as (Hh & Hn).
  destruct (normalize_spec gm example_inputs kwargs w) as (Ht & _ & _).
  destruct (lower_aten_to_mgx_run gm example_inputs kwargs w) as (evs & Hev & H).
  rewrite Hn, Hh in H. destruct H as (Hl & _ & _).
  exists (normalize gm example_inputs kwargs w).1, evs.
  split; [exact Hh|]. split; [exact Ht|]. split; [|split; assumption].
  rewrite lower_aten_to_mgx_unfold.
  destruct (normalize gm example_inputs kwargs w) as [w1 r]; cbn [fst snd] in *.
  subst r. rewrite Hh. reflexivity.
Qed.

(** X5: when the pass manager raises, [lower_aten_to_mgx] raises that
    exception with the store the pass manager left; it has printed the traced
    model if [verbose] is true, called the pass manager, and done nothing
    else. *)
Theorem lower_aten_to_mgx_passes_failure gm example_inputs kwargs w h e :
  let verbose := kwargs_get "verbose" (PyBool false) kwargs in
  run_aten_passes (heap w) gm example_inputs verbose = (h, inl e) →
  let res := lower_aten_to_mgx gm example_inputs kwargs w in
  res.2 = inl (Raised e) ∧
  heap res.1 = h ∧
  events_since w res.1 =
    printed verbose "Traced Model" (Subgraph gm) example_inputs ++
    [EvRunAtenPasses gm example_inputs verbose].
Proof.
  cbv zeta. intros Hr.
  destruct (normalize_spec gm example_inputs kwargs w) as (Ht & Hh & Ho).
  rewrite Hr in Hh, Ho. cbn [fst snd] in Hh, Ho.
  rewrite lower_aten_to_mgx_unfold.
  destruct (normalize gm example_inputs kwargs w) as [w1 r]; cbn [fst snd] in *. subst r.
  cbn [fst snd]. split; [reflexivity|]. split; [exact Hh|].
  apply events_since_app. exact Ht.
Qed.

(** X6: on a root without children, [lower_aten_to_mgx] returns the root with
    the store the pass manager left: it lowers nothing and writes nothing. *)
Theorem lower_aten_to_mgx_no_children gm example_inputs kwargs w h optim_gm :
  let verbose := kwargs_get "verbose" (PyBool false) kwargs in
  run_aten_passes (heap w) gm example_inputs verbose = (h, inr optim_gm) →
  modules (h optim_gm) = [] →
  let res := lower_aten_to_mgx gm example_inputs kwargs w in
  res.2 = inr optim_gm ∧
  heap res.1 = h ∧
  events_since w res.1 =
    printed verbose "Traced Model" (Subgraph gm) example_inputs ++
    [EvRunAtenPasses gm example_inputs verbose].
Proof.
  cbv zeta. intros Hr Hm.
  destruct (lower_aten_to_mgx_loop _ _ _ _ _ _ Hr) as (w1 & evs & Hh & Ht & Hrun & _ & _).
  rewrite Hrun. unfold named_children. rewrite Hm. cbn.
  split; [reflexivity|]. split; [exact Hh|]. apply events_since_app. exact Ht.
Qed.

(** X7: a top-level [name] option makes the call for the first child fail:
    once the inputs of that child are resolved, [lower_aten_to_mgx] raises a
    [TypeError]; [lower_subgraph] is not called, nothing is written, and the
    store is as the pass manager left it. *)
Theorem lower_aten_to_mgx_name_option
    gm example_inputs kwargs w h optim_gm name mod_ rest inputs v :
  let verbose := kwargs_get "verbose" (PyBool false) kwargs in
  run_aten_passes (heap w) gm example_inputs verbose = (h, inr optim_gm) →
  named_children (h optim_gm) = (name, mod_) :: rest →
  get_partition_inputs h optim_gm mod_ example_inputs = inr inputs →
  kwargs !! "name" = Some v →
  let res := lower_aten_to_mgx gm example_inputs kwargs w in
  (∃ msg, res.2 = inl (TypeError msg)) ∧
  heap res.1 = h ∧
  events_since w res.1 =
    printed verbose "Traced Model" (Subgraph gm) example_inputs ++
    [EvRunAtenPasses gm example_inputs verbose] ++
    printed verbose name mod_ inputs.
Proof.
  cbv zeta. intros Hr Hc Hi Hn.
  destruct (lower_aten_to_mgx_loop _ _ _ _ _ _ Hr) as (w1 & evs & Hh & Ht & Hrun & _ & _).
  rewrite Hrun, Hc. cbn [lower_children]. unfold bind.
  rewrite lower_child_unfold, Hh, Hi. cbv zeta. rewrite Hn. cbn [fst snd heap].
  split; [eexists; reflexivity|]. split; [reflexivity|].
  apply events_since_app. cbn [trace]. rewrite Ht, <- !app_assoc. reflexivity.
Qed.


(** X9: when [lower_aten_to_mgx] returns on a tree-shaped root, every slot
    holds a wrapper that carries the top-level [fp16] option (false when
    absent): the precision asked of the whole graph is that of every child. *)
Theorem lower_aten_to_mgx_fp16_everywhere gm example_inputs kwargs w h optim_gm :
  run_aten_passes (heap w) gm example_inputs (kwargs_get "verbose" (PyBool false) kwargs)
    = (h, inr optim_gm) →
  tree_shaped (modules (h optim_gm)) →
  succeeded (lower_aten_to_mgx gm example_inputs kwargs w).2 = true →
  Forall (fun nc => ∃ m, nc.2 = Compiled m ∧
                         quantize_fp16 m = kwargs_get "fp16" (PyBool false) kwargs)
    (modules (heap (lower_aten_to_mgx gm example_inputs kwargs w).1 optim_gm)).
Proof.
  intros Hr Htree Hok.
  destruct (lower_aten_to_mgx_loop _ _ _ _ _ _ Hr) as (w1 & evs & Hh & _ & Hrun & _ & _).
  rewrite Hrun in Hok |- *. rewrite (named_children_tree _ Htree) in Hok |- *.
  pose proof (lower_children_wrappers optim_gm example_inputs kwargs
                (kwargs_get "verbose" (PyBool false) kwargs) (modules (h optim_gm))
                [] [] w1) as H. cbv zeta in H.
  destruct (lower_children _ _ _ _ _ w1) as [w2 [e|[]]]; cbn [fst snd succeeded] in *;
    [discriminate Hok|].
  destruct H as (cs' & Hm & Hc).
  - rewrite Hh, app_nil_r. reflexivity.
  - rewrite app_nil_r. apply Htree.
  - reflexivity.
  - rewrite app_nil_r in Hm. cbn [app] in Hm. rewrite Hm. exact Hc.
Qed.

(** X10: when the children of the root have distinct names, no two files
    written by one [lower_aten_to_mgx] have the same name, whatever the
    outcome: no artifact overwrites another. *)
Theorem lower_aten_to_mgx_distinct_files gm example_inputs kwargs w h optim_gm :
  run_aten_passes (heap w) gm example_inputs (kwargs_get "verbose" (PyBool false) kwargs)
    = (h, inr optim_gm) →
  NoDup (named_children (h optim_gm)).*1 →
  NoDup (saved_files (events_since w (lower_aten_to_mgx gm example_inputs kwargs w).1)).
Proof.
  intros Hr Hnd.
  destruct (lower_aten_to_mgx_loop _ _ _ _ _ _ Hr) as (w1 & evs & _ & _ & _ & Hev & Hl).
  rewrite Hev, !saved_files_app, saved_files_printed. cbn.
  apply loop_events_saved_prefix in Hl. destruct Hl as [k Hk].
  assert (NoDup ((fun name => name +:+ ".mxr") <$> (named_children (h optim_gm)).*1)) as H.
  { apply NoDup_fmap_2; [|exact Hnd]. intros s1 s2. apply mxr_suffix_inj. }
  rewrite Hk in H. apply NoDup_app in H as (H & _). exact H.
Qed.

(** X11: [lower_aten_to_mgx] changes, in the store the pass manager left,
    the root and the children it lowers, and nothing else; of an object that
    is no child, the root included, it keeps the graph. *)
Theorem lower_aten_to_mgx_frame gm example_inputs kwargs w h optim_gm o :
  run_aten_passes (heap w) gm example_inputs (kwargs_get "verbose" (PyBool false) kwargs)
    = (h, inr optim_gm) →
  o ∉ child_locs (named_children (h optim_gm)) →
  let res := lower_aten_to_mgx gm example_inputs kwargs w in
  graph (heap res.1 o) = graph (h o) ∧
  (o ≠ optim_gm → heap res.1 o = h o).
Proof.
  intros Hr Ho. cbv zeta.
  destruct (lower_aten_to_mgx_loop _ _ _ _ _ _ Hr) as (w1 & evs & Hh & _ & Hrun & _ & _).
  rewrite Hrun.
  pose proof (lower_children_frame optim_gm example_inputs kwargs
                (kwargs_get "verbose" (PyBool false) kwargs)
                (named_children (h optim_gm)) w1 o Ho) as H. cbv zeta in H.
  rewrite Hh in H.
  destruct (lower_children _ _ _ _ _ w1) as [w2 [e|[]]]; cbn [fst] in *; exact H.
Qed.

(** X12: whatever the outcome of [lower_aten_to_mgx] on a tree-shaped root,
    the root keeps its slots by name and order; the slots that hold a wrapper
    are the first ones, and every other slot holds what it held. *)
Theorem lower_aten_to_mgx_prefix gm example_inputs kwargs w h optim_gm :
  run_aten_passes (heap w) gm example_inputs (kwargs_get "verbose" (PyBool false) kwargs)
    = (h, inr optim_gm) →
  tree_shaped (modules (h optim_gm)) →
  ∃ lowered lowered' kept,
    modules (h optim_gm) = lowered ++ kept ∧
    modules (heap (lower_aten_to_mgx gm example_inputs kwargs w).1 optim_gm)
      = lowered' ++ kept ∧
    lowered'.*1 = lowered.*1 ∧
    Forall (fun nc => is_compiled nc.2 = true) lowered'.
Proof.
  intros Hr Htree.
  destruct (lower_aten_to_mgx_loop _ _ _ _ _ _ Hr) as (w1 & evs & Hh & _ & Hrun & _ & _).
  rewrite Hrun, (named_children_tree _ Htree).
  destruct (lower_children_prefix optim_gm example_inputs kwargs
              (kwargs_get "verbose" (PyBool false) kwargs) (modules (h optim_gm))
              [] [] w1) as (lo & lo' & kept & Hsplit & Hm & Hn & Hc).
  - rewrite Hh, app_nil_r. reflexivity.
  - rewrite app_nil_r. apply Htree.
  - exists lo, lo', kept. rewrite app_nil_r in Hm. cbn [app] in Hm.
    split; [exact Hsplit|]. split; [|split; assumption].
    revert Hm.
    generalize (lower_children optim_gm example_inputs kwargs
                  (kwargs_get "verbose" (PyBool false) kwargs) (modules (h optim_gm)) w1).
    intros [w2 [e|[]]]; cbn [fst]; intros Hm; exact Hm.
Qed.

End Lowering.

(** ** The claims on the instance *)

Abbreviation toy_lower_subgraph :=
  (lower_subgraph Toy.propagate Toy.interpreter Toy.run Toy.prog Toy.names Toy.names_ok
    Toy.write Toy.construct).

Abbreviation toy_lower_aten_to_mgx :=
  (lower_aten_to_mgx Toy.passes Toy.partition_inputs Toy.propagate Toy.interpreter Toy.run
     Toy.prog Toy.names Toy.names_ok Toy.write Toy.construct).

Lemma two_children_tree : tree_shaped Toy.two_children.
Proof. split; compute_done. Qed.

Lemma three_children_tree : tree_shaped Toy.three_children.
Proof. split; compute_done. Qed.

(** C1 on a root with two children, both of which the backend can lower. *)
Lemma lower_aten_to_mgx_substitutes_all_witness :
  (toy_lower_aten_to_mgx 0 [7] Toy.half_precision (Toy.world Toy.two_children)).2 = inr 0 ∧
  (modules (heap (toy_lower_aten_to_mgx 0 [7] Toy.half_precision
                    (Toy.world Toy.two_children)).1 0)).*1 = ["fused_0"; "fused_1"] ∧
  Forall (fun nc => is_compiled nc.2 = true)
    (modules (heap (toy_lower_aten_to_mgx 0 [7] Toy.half_precision
                      (Toy.world Toy.two_children)).1 0)).
Proof.
  split; [reflexivity|].
  destruct (lower_aten_to_mgx_substitutes_all Toy.passes Toy.partition_inputs Toy.propagate
              Toy.interpreter Toy.run Toy.prog Toy.names Toy.names_ok Toy.write Toy.construct
              0 [7] Toy.half_precision (Toy.world Toy.two_children)
              (Toy.store Toy.two_children) 0 0)
    as (_ & _ & Hnames & Hall).
  - reflexivity.
  - exact two_children_tree.
  - reflexivity.
  - split; [exact Hnames|exact Hall].
Defined.



(** A top-level [name] option meets the one the call site gives: Python
    refuses the call for the first child. *)
Example lower_aten_to_mgx_refuses_name :
  (toy_lower_aten_to_mgx 0 [7] Toy.named_b (Toy.world Toy.two_children)).2
  = inl (TypeError "lower_subgraph() got multiple values for keyword argument 'name'").
Proof. reflexivity. Qed.

(** C3 on a root with three children, the second of which the backend cannot
    lower: the first slot holds a wrapper, the second and third their
    subgraphs. *)
Lemma lower_aten_to_mgx_no_rollback_witness :
  (toy_lower_aten_to_mgx 0 [7] Toy.no_options (Toy.world Toy.three_children)).2
    = inl (Raised "unsupported operation") ∧
  ∃ pre',
    modules (heap (toy_lower_aten_to_mgx 0 [7] Toy.no_options
                     (Toy.world Toy.three_children)).1 0)
    = pre' ++ [("fused_1", Subgraph 2); ("fused_2", Subgraph 3)] ∧
    pre'.*1 = ["fused_0"] ∧
    Forall (fun nc => is_compiled nc.2 = true) pre'.
Proof.
  destruct (lower_aten_to_mgx_no_rollback Toy.passes Toy.partition_inputs Toy.propagate
              Toy.interpreter Toy.run Toy.prog Toy.names Toy.names_ok Toy.write Toy.construct
              0 [7] Toy.no_options (Toy.world Toy.three_children) 0
              [("fused_0", Subgraph 1)] "fused_1" (Subgraph 2) [("fused_2", Subgraph 3)]
              (Raised "unsupported operation"))
    as (Hrun & Hslots).
  - reflexivity.
  - exact three_children_tree.
  - reflexivity.
  - reflexivity.
  - reflexivity.
  - rewrite Hrun. split; [reflexivity|exact Hslots].
Defined.

(** C4 on the instance: a supplied name, the default name, no persistence. *)
Lemma lower_subgraph_writes_artifact_witness :
  trace (toy_lower_subgraph 1 [7] Toy.saving_as_enc (Toy.world [])).1
    = [EvSave 1 "enc.mxr"] ∧
  trace (toy_lower_subgraph 1 [7] Toy.saving (Toy.world [])).1 = [EvSave 1 "prog.mxr"] ∧
  trace (toy_lower_subgraph 1 [7] Toy.named_a (Toy.world [])).1 = [].
Proof.
  split; [|split].
  - apply (proj1 (lower_subgraph_writes_artifact Toy.propagate Toy.interpreter Toy.run
                    Toy.prog Toy.names Toy.names_ok Toy.write Toy.construct
                    1 [7] Toy.saving_as_enc (Toy.world []))
             eq_refl 1 1 1); reflexivity.
  - apply (proj1 (lower_subgraph_writes_artifact Toy.propagate Toy.interpreter Toy.run
                    Toy.prog Toy.names Toy.names_ok Toy.write Toy.construct
                    1 [7] Toy.saving (Toy.world []))
             eq_refl 1 1 1); reflexivity.
  - apply (proj2 (proj2 (lower_subgraph_writes_artifact Toy.propagate Toy.interpreter
                           Toy.run Toy.prog Toy.names Toy.names_ok Toy.write Toy.construct
                           1 [7] Toy.named_a (Toy.world [])))).
    reflexivity.
Defined.

(** The file stays written when the wrapper cannot be set up afterwards. *)
Example lower_subgraph_saves_then_raises :
  lower_subgraph Toy.propagate Toy.interpreter Toy.run Toy.prog Toy.names Toy.names_ok
    Toy.write Toy.failing_construct 1 [7] Toy.saving (Toy.world [])
  = ({| heap := <[1 := {| graph := 1; modules := [] |}]> (Toy.store []);
        trace := [EvSave 1 "prog.mxr"] |},
     inl (Raised "compilation failed")).
Proof. reflexivity. Qed.

(** C5 on a call with no input where the subgraph takes one. *)
Lemma lower_subgraph_shape_failure_witness :
  (toy_lower_subgraph 1 [] Toy.saving (Toy.world [])).2
    = inl (Raised "mismatched input count") ∧
  trace (toy_lower_subgraph 1 [] Toy.saving (Toy.world [])).1 = [].
Proof.
  apply (lower_subgraph_shape_failure Toy.propagate Toy.interpreter Toy.run Toy.prog
           Toy.names Toy.names_ok Toy.write Toy.construct 1 [] Toy.saving (Toy.world []) 0).
  reflexivity.
Defined.

(** C6 on a call with [fp16] set. *)
Lemma lower_subgraph_wrapper_witness :
  reduced_precision {| program := 1; input_names := ["x"]; quantize_fp16 := PyBool true |}
    = true ↔
  ∃ v, Toy.half_precision !! "fp16" = Some v ∧ py_truthy v = true.
Proof.
  apply (lower_subgraph_wrapper Toy.propagate Toy.interpreter Toy.run Toy.prog Toy.names
    Toy.names_ok
           Toy.write Toy.construct 1 [7] Toy.half_precision (Toy.world [])).
  reflexivity.
Defined.

(** The claim C7 as the spec words it fails for [lower_subgraph]: called with
    [verbose] true, it prints no graph info. *)
Lemma lower_subgraph_prints_nothing :
  ¬ (Exists (fun ev => is_print ev = true)
       (events_since (Toy.world [])
          (toy_lower_subgraph 1 [7] Toy.verbose_on (Toy.world [])).1)
     ↔ py_truthy (kwargs_get "verbose" (PyBool false) Toy.verbose_on) = true).
Proof.
  intros [_ H]. specialize (H eq_refl). vm_compute in H. inversion H.
Qed.

(** C7 on the instance: with [verbose] true, the traced model is printed before
    the pass manager is called and each child before its lowering. *)
Example lower_aten_to_mgx_verbose_prints :
  is_print <$> events_since (Toy.world Toy.two_children)
                 (toy_lower_aten_to_mgx 0 [7] Toy.verbose_on (Toy.world Toy.two_children)).1
  = [true; false; true; false; true; false].
Proof. reflexivity. Qed.

(** C8 on a root with two children and [save_mxr] set. *)
Lemma lower_aten_to_mgx_names_artifacts_witness :
  saved_files
    (events_since (Toy.world Toy.two_children)
       (toy_lower_aten_to_mgx 0 [7] Toy.saving (Toy.world Toy.two_children)).1)
  = ["fused_0.mxr"; "fused_1.mxr"].
Proof.
  destruct (lower_aten_to_mgx_names_artifacts Toy.passes Toy.partition_inputs Toy.propagate
              Toy.interpreter Toy.run Toy.prog Toy.names Toy.names_ok Toy.write Toy.construct
              0 [7] Toy.saving (Toy.world Toy.two_children) (Toy.store Toy.two_children) 0
              eq_refl)
    as (_ & _ & Hfiles).
  rewrite Hfiles; reflexivity.
Defined.

(** C9 on two calls that differ in [name] and in an option the code does not
    read. *)
Lemma lower_subgraph_ignores_name_witness :
  toy_lower_subgraph 1 [7] Toy.named_a (Toy.world [])
  = toy_lower_subgraph 1 [7] Toy.named_b (Toy.world []) ∧
  trace (toy_lower_subgraph 1 [7] Toy.named_a (Toy.world [])).1 = [].
Proof.
  apply (lower_subgraph_ignores_name Toy.propagate Toy.interpreter Toy.run Toy.prog
           Toy.names Toy.names_ok Toy.write Toy.construct 1 [7] Toy.named_a Toy.named_b
           (Toy.world []));
    reflexivity.
Defined.

(** C10 on the subgraph the backend cannot lower: the call raises, and the
    graph has gone from no annotated node to one. *)
Lemma lower_subgraph_run_failure_witness :
  (toy_lower_subgraph 2 [7] Toy.saving (Toy.world [])).2
    = inl (Raised "unsupported operation") ∧
  trace (toy_lower_subgraph 2 [7] Toy.saving (Toy.world [])).1 = [] ∧
  graph (heap (toy_lower_subgraph 2 [7] Toy.saving (Toy.world [])).1 2) = 1 ∧
  heap (toy_lower_subgraph 2 [7] Toy.saving (Toy.world [])).1 2 ≠ heap (Toy.world []) 2.
Proof.
  destruct (lower_subgraph_run_failure Toy.propagate Toy.interpreter Toy.run Toy.prog
              Toy.names Toy.names_ok Toy.write Toy.construct 2 [7] Toy.saving (Toy.world []) 1 2
              "unsupported operation" eq_refl eq_refl eq_refl)
    as (Hraise & Htrace & Hgraph & Hchanged).
  split; [exact Hraise|]. split; [exact Htrace|]. split; [exact Hgraph|].
  apply Hchanged. discriminate.
Defined.

(** ** The further properties on the instance *)

(** X3 on a backend without interpreter. *)
Lemma lower_subgraph_interpreter_failure_witness :
  (lower_subgraph Toy.propagate Toy.no_interpreter Toy.run Toy.prog Toy.names Toy.names_ok
    Toy.write Toy.construct
     1 [7] Toy.saving (Toy.world [])).2 = inl (Raised "no converter") ∧
  trace (lower_subgraph Toy.propagate Toy.no_interpreter Toy.run Toy.prog Toy.names Toy.names_ok
           Toy.write Toy.construct 1 [7] Toy.saving (Toy.world [])).1 = [] ∧
  graph (heap (lower_subgraph Toy.propagate Toy.no_interpreter Toy.run Toy.prog Toy.names
    Toy.names_ok
                 Toy.write Toy.construct 1 [7] Toy.saving (Toy.world [])).1 1) = 1.
Proof.
  apply (lower_subgraph_interpreter_failure Toy.propagate Toy.no_interpreter Toy.run
           Toy.prog Toy.names Toy.names_ok Toy.write Toy.construct 1 [7] Toy.saving (Toy.world []) 1
           "no converter"); reflexivity.
Defined.

(** X4 on a disk that takes no file. *)
Lemma lower_subgraph_save_failure_witness :
  (lower_subgraph Toy.propagate Toy.interpreter Toy.run Toy.prog Toy.names Toy.names_ok
    Toy.full_disk Toy.construct
     1 [7] Toy.saving (Toy.world [])).2 = inl (Raised "no space left") ∧
  trace (lower_subgraph Toy.propagate Toy.interpreter Toy.run Toy.prog Toy.names Toy.names_ok
           Toy.full_disk Toy.construct 1 [7] Toy.saving (Toy.world [])).1 = [] ∧
  graph (heap (lower_subgraph Toy.propagate Toy.interpreter Toy.run Toy.prog Toy.names Toy.names_ok
                 Toy.full_disk Toy.construct 1 [7] Toy.saving (Toy.world [])).1 1) = 1.
Proof.
  apply (lower_subgraph_save_failure Toy.propagate Toy.interpreter Toy.run Toy.prog
           Toy.names Toy.names_ok Toy.full_disk Toy.construct 1 [7] Toy.saving (Toy.world []) 1
           1 1 "no space left");
    reflexivity.
Defined.

(** X13 on a backend on which the wrapper cannot be set up, with [save_mxr]
    true: the call raises and the file is there. *)
Lemma lower_subgraph_wrapper_failure_witness :
  (lower_subgraph Toy.propagate Toy.interpreter Toy.run Toy.prog Toy.names Toy.names_ok
     Toy.write Toy.failing_construct 1 [7] Toy.saving (Toy.world [])).2
    = inl (Raised "compilation failed") ∧
  trace (lower_subgraph Toy.propagate Toy.interpreter Toy.run Toy.prog Toy.names
           Toy.names_ok Toy.write Toy.failing_construct 1 [7] Toy.saving (Toy.world [])).1
    = [EvSave 1 "prog.mxr"] ∧
  graph (heap (lower_subgraph Toy.propagate Toy.interpreter Toy.run Toy.prog Toy.names
                 Toy.names_ok Toy.write Toy.failing_construct 1 [7] Toy.saving
                 (Toy.world [])).1 1) = 1.
Proof.
  apply (lower_subgraph_wrapper_failure Toy.propagate Toy.interpreter Toy.run Toy.prog
           Toy.names Toy.names_ok Toy.write Toy.failing_construct
           1 [7] Toy.saving (Toy.world []) 1 1 1 "compilation failed");
    [reflexivity|reflexivity|reflexivity|intros _; reflexivity|right; split; reflexivity].
Defined.

(** X5 on a pass manager that rejects the graph, with [verbose] true. *)
Lemma lower_aten_to_mgx_passes_failure_witness :
  (lower_aten_to_mgx Toy.rejecting_passes Toy.partition_inputs Toy.propagate Toy.interpreter
     Toy.run Toy.prog Toy.names Toy.names_ok Toy.write Toy.construct 0 [7] Toy.verbose_on
     (Toy.world Toy.two_children)).2 = inl (Raised "unsupported graph") ∧
  events_since (Toy.world Toy.two_children)
    (lower_aten_to_mgx Toy.rejecting_passes Toy.partition_inputs Toy.propagate
       Toy.interpreter Toy.run Toy.prog Toy.names Toy.names_ok Toy.write Toy.construct 0 [7]
       Toy.verbose_on
       (Toy.world Toy.two_children)).1
  = [EvPrintGraphInfo "Traced Model" (Subgraph 0) [7];
     EvRunAtenPasses 0 [7] (PyBool true)].
Proof.
  destruct (lower_aten_to_mgx_passes_failure Toy.rejecting_passes Toy.partition_inputs
              Toy.propagate Toy.interpreter Toy.run Toy.prog Toy.names Toy.names_ok Toy.write
              Toy.construct
              0 [7] Toy.verbose_on (Toy.world Toy.two_children)
              (Toy.store Toy.two_children) "unsupported graph" eq_refl)
    as (Hraise & _ & Hevents).
  split; [exact Hraise|]. rewrite Hevents. reflexivity.
Defined.

(** X6 on a root without children. *)
Lemma lower_aten_to_mgx_no_children_witness :
  (toy_lower_aten_to_mgx 0 [7] Toy.saving (Toy.world [])).2 = inr 0 ∧
  events_since (Toy.world []) (toy_lower_aten_to_mgx 0 [7] Toy.saving (Toy.world [])).1
  = [EvRunAtenPasses 0 [7] (PyBool false)].
Proof.
  destruct (lower_aten_to_mgx_no_children Toy.passes Toy.partition_inputs Toy.propagate
              Toy.interpreter Toy.run Toy.prog Toy.names Toy.names_ok Toy.write Toy.construct
              0 [7] Toy.saving (Toy.world []) (Toy.store []) 0 eq_refl eq_refl)
    as (Hret & _ & Hevents).
  split; [exact Hret|]. rewrite Hevents. reflexivity.
Defined.

(** X7 on a root with two children and a top-level [name]. *)
Lemma lower_aten_to_mgx_name_option_witness :
  (∃ msg, (toy_lower_aten_to_mgx 0 [7] Toy.named_b (Toy.world Toy.two_children)).2
          = inl (TypeError msg)) ∧
  events_since (Toy.world Toy.two_children)
    (toy_lower_aten_to_mgx 0 [7] Toy.named_b (Toy.world Toy.two_children)).1
  = [EvRunAtenPasses 0 [7] (PyBool false)].
Proof.
  destruct (lower_aten_to_mgx_name_option Toy.passes Toy.partition_inputs Toy.propagate
              Toy.interpreter Toy.run Toy.prog Toy.names Toy.names_ok Toy.write Toy.construct
              0 [7] Toy.named_b (Toy.world Toy.two_children) (Toy.store Toy.two_children) 0
              "fused_0" (Subgraph 1) [("fused_1", Subgraph 3)] [7] (PyStr "b")
              eq_refl eq_refl eq_refl eq_refl)
    as (Hraise & _ & Hevents).
  split; [exact Hraise|]. rewrite Hevents. reflexivity.
Defined.


(** X9 on a root with two children and [fp16] true. *)
Lemma lower_aten_to_mgx_fp16_everywhere_witness :
  Forall (fun nc => ∃ m, nc.2 = Compiled m ∧ quantize_fp16 m = PyBool true)
    (modules (heap (toy_lower_aten_to_mgx 0 [7] Toy.half_precision
                      (Toy.world Toy.two_children)).1 0)).
Proof.
  apply (lower_aten_to_mgx_fp16_everywhere Toy.passes Toy.partition_inputs Toy.propagate
           Toy.interpreter Toy.run Toy.prog Toy.names Toy.names_ok Toy.write Toy.construct
           0 [7] Toy.half_precision (Toy.world Toy.two_children)
           (Toy.store Toy.two_children) 0 eq_refl two_children_tree eq_refl).
Defined.

(** X10 on a root with two children and [save_mxr] true. *)
Lemma lower_aten_to_mgx_distinct_files_witness :
  NoDup (saved_files
           (events_since (Toy.world Toy.two_children)
              (toy_lower_aten_to_mgx 0 [7] Toy.saving (Toy.world Toy.two_children)).1)).
Proof.
  apply (lower_aten_to_mgx_distinct_files Toy.passes Toy.partition_inputs Toy.propagate
           Toy.interpreter Toy.run Toy.prog Toy.names Toy.names_ok Toy.write Toy.construct
           0 [7] Toy.saving (Toy.world Toy.two_children) (Toy.store Toy.two_children) 0
           eq_refl).
  apply two_children_tree.
Defined.

(** X11 on an object that is no child of the root. *)
Lemma lower_aten_to_mgx_frame_witness :
  graph (heap (toy_lower_aten_to_mgx 0 [7] Toy.saving (Toy.world Toy.two_children)).1 2)
  = graph (Toy.store Toy.two_children 2) ∧
  (2 ≠ 0 →
   heap (toy_lower_aten_to_mgx 0 [7] Toy.saving (Toy.world Toy.two_children)).1 2
   = Toy.store Toy.two_children 2).
Proof.
  apply (lower_aten_to_mgx_frame Toy.passes Toy.partition_inputs Toy.propagate
           Toy.interpreter Toy.run Toy.prog Toy.names Toy.names_ok Toy.write Toy.construct
           0 [7] Toy.saving (Toy.world Toy.two_children) (Toy.store Toy.two_children) 0 2
           eq_refl).
  compute_done.
Defined.

(** X12 on a root with three children, the second of which cannot be lowered. *)
Lemma lower_aten_to_mgx_prefix_witness :
  ∃ lowered lowered' kept,
    Toy.three_children = lowered ++ kept ∧
    modules (heap (toy_lower_aten_to_mgx 0 [7] Toy.no_options
                     (Toy.world Toy.three_children)).1 0) = lowered' ++ kept ∧
    lowered'.*1 = lowered.*1 ∧
    Forall (fun nc => is_compiled nc.2 = true) lowered'.
Proof.
  apply (lower_aten_to_mgx_prefix Toy.passes Toy.partition_inputs Toy.propagate
           Toy.interpreter Toy.run Toy.prog Toy.names Toy.names_ok Toy.write Toy.construct
           0 [7] Toy.no_options (Toy.world Toy.three_children)
           (Toy.store Toy.three_children) 0 eq_refl three_children_tree).
Defined.
